(** * Auth.js (next-auth): JWT session tokens, getToken, the SvelteKit client
      helpers, the provider-type generator and the MikroORM adapter.

    A shallow embedding of the TypeScript sources, with the properties of
    the specification stated and proved over it.

    Conventions.
    - A JavaScript string is a [string] holding its UTF-8 bytes.
    - A JavaScript number is a [Z]; only whole numbers occur in the code
      modelled here (seconds, milliseconds).
    - A function that may throw returns a [completion].
    - Reads of the clock, of the random source and of the environment are
      explicit arguments. *)

From Stdlib Require Import ZArith Ascii String List Lia.
From stdpp Require Import base option list strings pretty gmap.

Local Open Scope Z_scope.
Local Set Warnings "-register-all".

(** ** JavaScript values and completions *)

(** The errors the modelled code can raise, by constructor name. *)
Inductive JSError : Type :=
| Error (message : string)
| TypeError (message : string)
| URIError
| SyntaxError
| MissingSecret (message : string)
| JOSEError (code : string)
| JWTClaimValidationFailed (claim : string)
| JWTExpired.

Inductive completion (A : Type) : Type :=
| Normal (a : A)
| Throw (e : JSError).
Arguments Normal {A} a.
Arguments Throw {A} e.

#[global] Instance completion_ret : MRet completion := λ A a, Normal a.

#[global] Instance completion_bind : MBind completion := λ A B k c,
  match c with
  | Normal a => k a
  | Throw e => Throw e
  end.

(** JSON values, as [JSON.parse] produces them. *)
Inductive json : Type :=
| JNull
| JBool (b : bool)
| JNumber (n : Z)
| JString (s : string)
| JArray (l : list json)
| JObject (l : list (string * json)).

(** Truthiness of a string: only the empty string is falsy. *)
Definition truthy (s : string) : bool :=
  match s with
  | EmptyString => false
  | String _ _ => true
  end.

(** Truthiness of an optional string ([undefined] is falsy). *)
Definition otruthy (o : option string) : bool :=
  match o with
  | None => false
  | Some s => truthy s
  end.

(** ** String builtins used by the sources *)

Module JSString.

(** s.split(sep) for a one-character separator. *)
Fixpoint split (sep : ascii) (s : string) : list string :=
  match s with
  | EmptyString => [EmptyString]
  | String c s' =>
      if Ascii.eqb c sep then EmptyString :: split sep s'
      else
        match split sep s' with
        | [] => [String c EmptyString]
        | w :: ws => String c w :: ws
        end
  end.

(** s.startsWith(p) *)
Definition startsWith (s p : string) : bool := String.prefix p s.

Definition code (c : ascii) : Z := Z.of_N (N_of_ascii c).
Definition char (n : Z) : ascii := ascii_of_N (Z.to_N n).

Definition hexval (c : ascii) : option Z :=
  let n := code c in
  if (48 <=? n) && (n <=? 57) then Some (n - 48)
  else if (65 <=? n) && (n <=? 70) then Some (n - 55)
  else if (97 <=? n) && (n <=? 102) then Some (n - 87)
  else None.

(** Where the decoder stands inside a percent escape. *)
Inductive escape : Type :=
| Outside
| AfterPercent
| AfterDigit (d : Z).

(** For the first octet [B] of an escaped character: how many continuation
    octets follow and the bounds on the next one (the well-formed UTF-8
    table); [None] when [B] cannot start a character. *)
Definition lead (B : Z) : option (nat * (Z * Z)) :=
  if B <? 128 then Some (O, (128, 191))
  else if B <? 194 then None
  else if B <? 224 then Some (1%nat, (128, 191))
  else if B =? 224 then Some (2%nat, (160, 191))
  else if B =? 237 then Some (2%nat, (128, 159))
  else if B <? 240 then Some (2%nat, (128, 191))
  else if B =? 240 then Some (3%nat, (144, 191))
  else if B <? 244 then Some (3%nat, (128, 191))
  else if B =? 244 then Some (3%nat, (128, 143))
  else None.

(** The Decode operation of ECMAScript with an empty reserved set. [pend]
    counts the continuation octets still owed, each of which must come as
    a percent escape with a value in [[lo, hi]]. [None] is a URIError. *)
Fixpoint Decode (s : string) (st : escape) (pend : nat) (lo hi : Z) : option string :=
  match s with
  | EmptyString =>
      match st, pend with
      | Outside, O => Some EmptyString
      | _, _ => None
      end
  | String c s' =>
      match st with
      | Outside =>
          if Ascii.eqb c "%" then Decode s' AfterPercent pend lo hi
          else
            match pend with
            | O => String c <$> Decode s' Outside O lo hi
            | S _ => None
            end
      | AfterPercent =>
          match hexval c with
          | None => None
          | Some d => Decode s' (AfterDigit d) pend lo hi
          end
      | AfterDigit d =>
          match hexval c with
          | None => None
          | Some d' =>
              let B := 16 * d + d' in
              match pend with
              | O =>
                  match lead B with
                  | None => None
                  | Some (n, (lo', hi')) =>
                      String (char B) <$> Decode s' Outside n lo' hi'
                  end
              | S n =>
                  if (lo <=? B) && (B <=? hi)
                  then String (char B) <$> Decode s' Outside n 128 191
                  else None
              end
          end
      end
  end.

(** decodeURIComponent(x); an [undefined] argument is first converted to
    the string "undefined". *)
Definition decodeURIComponent (x : option string) : completion string :=
  match Decode (default "undefined" x) Outside O 128 191 with
  | Some r => Normal r
  | None => Throw URIError
  end.

End JSString.

(** ** packages/core/src/jwt.ts *)

Module Jwt.

Import JSString.

(** const DEFAULT_MAX_AGE = 30 * 24 * 60 * 60 *)
Definition DEFAULT_MAX_AGE : Z := 30 * 24 * 60 * 60.

(** The [| 0] of JavaScript: ToInt32, wrap-around into [-2^31, 2^31). *)
Definition ToInt32 (x : Z) : Z := (x + 2 ^ 31) mod 2 ^ 32 - 2 ^ 31.

(** const now = () => (Date.now() / 1000) | 0
    [Date_now] is the clock reading in milliseconds; the division is
    truncated toward zero by ToInt32. *)
Definition now (Date_now : Z) : Z := ToInt32 (Date_now ÷ 1000).

(** The epoch seconds jose computes for [setIssuedAt()] and for claim
    validation: Math.floor(date.getTime() / 1000). *)
Definition epoch (Date_now : Z) : Z := Date_now `div` 1000.

Record JWEHeader : Type := { alg : string; enc : string }.

(** The state of an [EncryptJWT] builder: the claims set and the protected
    header given so far. *)
Record EncryptJWT : Type := {
  _payload : gmap string json;
  _protectedHeader : option JWEHeader;
}.

Definition new_EncryptJWT (payload : gmap string json) : EncryptJWT :=
  {| _payload := payload; _protectedHeader := None |}.

Definition setProtectedHeader (h : JWEHeader) (b : EncryptJWT) : EncryptJWT :=
  {| _payload := _payload b; _protectedHeader := Some h |}.

Definition setClaim (name : string) (v : json) (b : EncryptJWT) : EncryptJWT :=
  {| _payload := <[name := v]> (_payload b);
     _protectedHeader := _protectedHeader b |}.

(** setIssuedAt() with no argument: the current epoch seconds. *)
Definition setIssuedAt (Date_now : Z) : EncryptJWT → EncryptJWT :=
  setClaim "iat" (JNumber (epoch Date_now)).

(** setExpirationTime(n) with a number. *)
Definition setExpirationTime (n : Z) : EncryptJWT → EncryptJWT :=
  setClaim "exp" (JNumber n).

Definition setJti (jti : string) : EncryptJWT → EncryptJWT :=
  setClaim "jti" (JString jti).

(** What one call of [encode] reads from its surroundings. *)
Record EncodeEnv : Type := {
  issuedAt_clock : Z;   (* the clock when setIssuedAt() runs, in ms *)
  now_clock : Z;        (* Date.now() inside now(), in ms *)
  randomUUID : string;  (* crypto.randomUUID() *)
  iv : string;          (* the initialization vector jose draws *)
}.

Record JWTEncodeParams : Type := {
  enc_token : option (gmap string json);
  enc_secret : string;
  enc_maxAge : option Z;
}.

Record JWTDecodeParams : Type := {
  dec_token : option string;
  dec_secret : string;
}.

(** process.env, as far as getToken reads it. *)
Record ProcessEnv : Type := {
  NEXTAUTH_URL : option string;
  VERCEL : option string;
  AUTH_SECRET : option string;
}.

(** The headers of a request: a Fetch [Headers] object, whose names are
    lower-cased, or a plain record. *)
Inductive RequestHeaders : Type :=
| HeadersObject (h : gmap string string)
| HeadersRecord (h : gmap string string).

(** req.headers instanceof Headers
      ? req.headers.get("authorization") : req.headers.authorization *)
Definition authorization (h : RequestHeaders) : option string :=
  match h with
  | HeadersObject m => m !! "authorization"
  | HeadersRecord m => m !! "authorization"
  end.

Record Req : Type := {
  cookies : option (gmap string string);
  headers : RequestHeaders;
}.

(** The parameters of getToken; the logger is left out, it only logs. *)
Record GetTokenParams : Type := {
  req : option Req;
  secureCookie : option bool;
  cookieName : option string;
  raw : option bool;
  decode_param : option (JWTDecodeParams → completion (option (gmap string json)));
  secret : option string;
}.

(** string | JWT | null *)
Inductive GetTokenResult : Type :=
| Null
| RawToken (token : string)
| Payload (jwt : gmap string json).

Section Jose.

(** The primitives of the two cryptography libraries.
    [hkdf digest ikm salt info keylen] is @panva/hkdf.
    [jweEncrypt h key claims iv] is jose's compact JWE encryption of the
    JSON text of [claims] under protected header [h].
    [jweDecrypt token key] is jose's compact JWE decryption followed by
    the JSON parse of the plaintext; it throws on any failure. *)
Variable hkdf : string → string → string → string → nat → string.
Variable jweEncrypt : JWEHeader → string → gmap string json → string → string.
Variable jweDecrypt : string → string → completion (JWEHeader * gmap string json).

(** EncryptJWT.encrypt(key): a protected header is required. *)
Definition encrypt (b : EncryptJWT) (key : string) (iv : string) : completion string :=
  match _protectedHeader b with
  | None => Throw (JOSEError "ERR_JWE_INVALID")
  | Some h => Normal (jweEncrypt h key (_payload b) iv)
  end.

(** The claim checks of jose's jwtDecrypt that apply with the options
    [{ clockTolerance }]: "iat" is a number when present, "nbf" is a
    number not after now + tolerance, "exp" is a number after
    now - tolerance. *)
Definition check_iat (payload : gmap string json) : completion unit :=
  match payload !! "iat" with
  | None | Some (JNumber _) => Normal ()
  | Some _ => Throw (JWTClaimValidationFailed "iat")
  end.

Definition check_nbf (payload : gmap string json) (t tolerance : Z) : completion unit :=
  match payload !! "nbf" with
  | None => Normal ()
  | Some (JNumber n) =>
      if n >? t + tolerance then Throw (JWTClaimValidationFailed "nbf") else Normal ()
  | Some _ => Throw (JWTClaimValidationFailed "nbf")
  end.

Definition check_exp (payload : gmap string json) (t tolerance : Z) : completion unit :=
  match payload !! "exp" with
  | None => Normal ()
  | Some (JNumber n) =>
      if n <=? t - tolerance then Throw JWTExpired else Normal ()
  | Some _ => Throw (JWTClaimValidationFailed "exp")
  end.

Definition jwtDecrypt (token key : string) (clockTolerance : Z) (Date_now : Z)
  : completion (gmap string json) :=
  hp ← jweDecrypt token key;
  let payload := hp.2 in
  check_iat payload;;
  check_nbf payload (epoch Date_now) clockTolerance;;
  check_exp payload (epoch Date_now) clockTolerance;;
  Normal payload.

(** async function getDerivedEncryptionKey(secret) *)
Definition getDerivedEncryptionKey (secret : string) : string :=
  hkdf "sha256" secret "" "Auth.js Generated Encryption Key" 32.

(** export async function encode(params) *)
Definition encode (env : EncodeEnv) (params : JWTEncodeParams) : completion string :=
  let token := default ∅ (enc_token params) in
  let secret := enc_secret params in
  let maxAge := default DEFAULT_MAX_AGE (enc_maxAge params) in
  let encryptionSecret := getDerivedEncryptionKey secret in
  let b0 := new_EncryptJWT token in
  let b1 := setProtectedHeader {| alg := "dir"; enc := "A256GCM" |} b0 in
  let b2 := setIssuedAt (issuedAt_clock env) b1 in
  let b3 := setExpirationTime (now (now_clock env) + maxAge) b2 in
  let b4 := setJti (randomUUID env) b3 in
  encrypt b4 encryptionSecret (iv env).

(** export async function decode(params); [Date_now] is the clock when
    jose validates the claims. *)
Definition decode (Date_now : Z) (params : JWTDecodeParams)
  : completion (option (gmap string json)) :=
  match dec_token params with
  | None => Normal None
  | Some token =>
      if negb (truthy token) then Normal None
      else
        let encryptionSecret := getDerivedEncryptionKey (dec_secret params) in
        payload ← jwtDecrypt token encryptionSecret 15 Date_now;
        Normal (Some payload)
  end.

(** [new SessionStore({ name, options: { secure } }, { cookies, headers },
    logger).value] of lib/cookie.js. *)
Variable SessionStore_value :
  string → bool → option (gmap string string) → RequestHeaders → string.

(** The token taken from the Authorization header when the cookies gave
    none: lines 145 to 148. *)
Definition bearerToken (token : string) (authorizationHeader : option string)
  : completion string :=
  match authorizationHeader with
  | Some h =>
      if negb (truthy token) && bool_decide (split " " h !! 0%nat = Some "Bearer")
      then
        let urlEncodedToken := split " " h !! 1%nat in
        decodeURIComponent urlEncodedToken
      else Normal token
  | None => Normal token
  end.

(** export async function getToken(params) *)
Definition getToken (penv : ProcessEnv) (Date_now : Z) (params : GetTokenParams)
  : completion GetTokenResult :=
  let secureCookie :=
    default
      (match NEXTAUTH_URL penv with
       | Some u => startsWith u "https://"
       | None => otruthy (VERCEL penv)
       end)
      (secureCookie params) in
  let cookieName :=
    default
      (if secureCookie
       then "__Secure-next-auth.session-token"
       else "next-auth.session-token")
      (cookieName params) in
  let _decode := default (decode Date_now) (decode_param params) in
  let secret :=
    match secret params with
    | Some s => Some s
    | None => AUTH_SECRET penv
    end in
  match req params with
  | None => Throw (Error "Must pass `req` to JWT getToken()")
  | Some req =>
      match secret with
      | None | Some EmptyString =>
          Throw (MissingSecret "Must pass `secret` if not set to JWT getToken()")
      | Some secret =>
          let token :=
            SessionStore_value cookieName secureCookie (cookies req) (headers req) in
          let authorizationHeader := authorization (headers req) in
          token ← bearerToken token authorizationHeader;
          if negb (truthy token) then Normal Null
          else if default false (raw params) then Normal (RawToken token)
          else
            match _decode {| dec_token := Some token; dec_secret := secret |} with
            | Normal (Some payload) => Normal (Payload payload)
            | Normal None => Normal Null
            | Throw _ => Normal Null
            end
      end
  end.

End Jose.

(** *** Vocabulary of the statements about jwt.ts *)

(** The claims set encode seals: the payload with iat, exp and jti written
    over it, in this order. *)
Definition issued_claims (env : EncodeEnv) (params : JWTEncodeParams) : gmap string json :=
  <["jti" := JString (randomUUID env)]>
    (<["exp" := JNumber (now (now_clock env) + default DEFAULT_MAX_AGE (enc_maxAge params))]>
       (<["iat" := JNumber (epoch (issuedAt_clock env))]>
          (default ∅ (enc_token params)))).

Definition A256GCM_dir : JWEHeader := {| alg := "dir"; enc := "A256GCM" |}.

(** The "nbf" claim of a payload, if any, passes jose's check at clock
    [t] with the tolerance of 15 seconds. *)
Definition not_before_ok (p : gmap string json) (t : Z) : Prop :=
  match p !! "nbf" with
  | None => True
  | Some (JNumber n) => n <= epoch t + 15
  | Some _ => False
  end.

(** secureCookie, after its default from the environment. *)
Definition effective_secureCookie (penv : ProcessEnv) (params : GetTokenParams) : bool :=
  default
    (match NEXTAUTH_URL penv with
     | Some u => startsWith u "https://"
     | None => otruthy (VERCEL penv)
     end)
    (secureCookie params).

(** secret, after its default from the environment. *)
Definition effective_secret (penv : ProcessEnv) (params : GetTokenParams) : option string :=
  match secret params with
  | Some s => Some s
  | None => AUTH_SECRET penv
  end.

Definition default_cookieName (secure : bool) : string :=
  if secure then "__Secure-next-auth.session-token" else "next-auth.session-token".

(** What getToken returns for a token it found: the token itself when raw
    is set, otherwise what the decode function makes of it, null when that
    throws. *)
Definition outcome (decode : JWTDecodeParams → completion (option (gmap string json)))
    (raw : option bool) (secret token : string) : GetTokenResult :=
  if default false raw then RawToken token
  else
    match decode {| dec_token := Some token; dec_secret := secret |} with
    | Normal (Some payload) => Payload payload
    | Normal None | Throw _ => Null
    end.

(** getToken in the words of the specification, for a request [r] and a
    secret: the session cookie has one of the two fixed names. *)
Definition getToken_as_stated
    (SessionStore_value : string → bool → option (gmap string string) → RequestHeaders → string)
    (decode : JWTDecodeParams → completion (option (gmap string json)))
    (secure : bool) (raw : option bool) (r : Req) (secret : string)
  : completion GetTokenResult :=
  let cookieToken :=
    SessionStore_value (default_cookieName secure) secure (cookies r) (headers r) in
  token ←
    (if truthy cookieToken then Normal cookieToken
     else
       match authorization (headers r) with
       | Some h =>
           match split " " h with
           | "Bearer" :: rest => decodeURIComponent (rest !! 0%nat)
           | _ => Normal EmptyString
           end
       | None => Normal EmptyString
       end);
  Normal (if truthy token then outcome decode raw secret token else Null).

End Jwt.


(** ** packages/core/scripts/generate-providers.js *)

Module GenerateProviders.

(** s.indexOf(c) for a one-character search string: -1 when absent. *)
Fixpoint indexOf (s : string) (c : ascii) : Z :=
  match s with
  | EmptyString => -1
  | String a s' =>
      if Ascii.eqb a c then 0
      else
        let r := indexOf s' c in
        if r <? 0 then -1 else r + 1
  end.

(** s.substring(indexStart, indexEnd): both ends are clamped to
    [0, length] and swapped when out of order. *)
Definition substring (s : string) (indexStart indexEnd : Z) : string :=
  let len := Z.of_nat (String.length s) in
  let a := Z.min (Z.max indexStart 0) len in
  let b := Z.min (Z.max indexEnd 0) len in
  let from := Z.min a b in
  let to := Z.max a b in
  String.substring (Z.to_nat from) (Z.to_nat (to - from)) s.

(** The double-quote character. *)
Definition dquote : ascii := JSString.char 34.

(** provider.replace with the global pattern of one double quote and an
    empty replacement: every double quote is removed. *)
Fixpoint replace_dquotes (s : string) : string :=
  match s with
  | EmptyString => EmptyString
  | String a s' =>
      if Ascii.eqb a dquote then replace_dquotes s'
      else String a (replace_dquotes s')
  end.

(** l.includes(x) on an array of strings. *)
Definition includes (l : list string) (x : string) : bool :=
  existsb (String.eqb x) l.

(** l.join(sep) *)
Fixpoint join (sep : string) (l : list string) : string :=
  match l with
  | [] => EmptyString
  | [x] => x
  | x :: r => x +:+ sep +:+ join sep r
  end.

Definition nonOAuthFile : list string :=
  ["oauth-types"; "oauth"; "index"; "email"; "credentials"].

(** The callback of files.map: the quoted stripped provider name. *)
Definition quotedProviderName (file : string) : string :=
  let strippedProviderName := substring file 0 (indexOf file ".") in
  String dquote strippedProviderName +:+ String dquote EmptyString.

(** const providers = files.map(...).filter(...) *)
Definition providers (files : list string) : list string :=
  List.filter
    (λ provider, negb (includes nonOAuthFile (replace_dquotes provider)))
    (map quotedProviderName files).

Definition nl : string := String (JSString.char 10) EmptyString.

(** The text written to oauth-types.ts. *)
Definition result (files : list string) : string :=
  nl +:+ "// THIS FILE IS AUTOGENERATED. DO NOT EDIT." +:+ nl
  +:+ "export type OAuthProviderType = " +:+ nl
  +:+ "  | " +:+ join (nl +:+ "  | ") (providers files).

(** The words of the specification: the text before the first dot of a
    file name. *)
Fixpoint text_before_first_dot (file : string) : string :=
  match file with
  | EmptyString => EmptyString
  | String a s' =>
      if Ascii.eqb a "." then EmptyString
      else String a (text_before_first_dot s')
  end.

(** The words of the specification: the base names of the files, without
    the five non-OAuth names, each written as a string-literal type. *)
Definition spec_union (files : list string) : list string :=
  map (λ name, String dquote name +:+ String dquote EmptyString)
    (List.filter (λ name, negb (includes nonOAuthFile name))
       (map text_before_first_dot files)).

(** The character [c] occurs in [s]. *)
Fixpoint occurs (c : ascii) (s : string) : bool :=
  match s with
  | EmptyString => false
  | String a s' => Ascii.eqb a c || occurs c s'
  end.

End GenerateProviders.

(** ** The SvelteKit client helpers (client.ts of the SvelteKit package) *)

Module SvelteKitClient.

Import JSString.

(** *** Objects, property access and conversions *)

(** An object with its own properties in insertion order (no property
    name here is an array index, which would come first); a property whose
    value is [None] holds [undefined]. *)
Definition get (k : string) (o : list (string * option json)) : option json :=
  match List.find (λ kv, String.eqb kv.1 k) o with
  | Some kv => kv.2
  | None => None
  end.

(** o[k] = v: an existing property keeps its place. *)
Fixpoint set (k : string) (v : option json) (o : list (string * option json))
  : list (string * option json) :=
  match o with
  | [] => [(k, v)]
  | kv :: r => if String.eqb kv.1 k then (k, v) :: r else kv :: set k v r
  end.

(** { ...target, ...source }; spreading [undefined] adds nothing. *)
Definition spread (source : option (list (string * option json)))
    (target : list (string * option json)) : list (string * option json) :=
  fold_left (λ acc kv, set kv.1 kv.2 acc) (default [] source) target.

(** v.name on a parsed JSON value, for a name that no builtin prototype
    defines: a TypeError on null, [undefined] on a value that has no such
    property. The keys of a parsed object are distinct. *)
Definition get_property (v : json) (name : string) : completion (option json) :=
  match v with
  | JNull => Throw (TypeError "Cannot read properties of null")
  | JObject l => Normal (snd <$> List.find (λ kv, String.eqb kv.1 name) l)
  | _ => Normal None
  end.

(** ToString of a JSON value. *)
Fixpoint ToString (v : json) : string :=
  match v with
  | JNull => "null"
  | JBool true => "true"
  | JBool false => "false"
  | JNumber n => pretty n
  | JString s => s
  | JArray l =>
      (fix elements (l : list json) : string :=
         match l with
         | [] => EmptyString
         | x :: r =>
             let e := match x with JNull => EmptyString | _ => ToString x end in
             match r with
             | [] => e
             | _ :: _ => e +:+ "," +:+ elements r
             end
         end) l
  | JObject _ => "[object Object]"
  end.

(** ToString of a value that may be [undefined]. *)
Definition ToString_opt (v : option json) : string :=
  match v with
  | None => "undefined"
  | Some j => ToString j
  end.

(** ToBoolean *)
Definition ToBoolean (v : json) : bool :=
  match v with
  | JNull => false
  | JBool b => b
  | JNumber n => negb (n =? 0)
  | JString s => truthy s
  | JArray _ | JObject _ => true
  end.

(** a ?? b *)
Definition nullish (a : option json) (b : json) : json :=
  match a with
  | None | Some JNull => b
  | Some v => v
  end.

(** s.includes(c) for a one-character search string. *)
Fixpoint string_includes (s : string) (c : ascii) : bool :=
  match s with
  | EmptyString => false
  | String a s' => Ascii.eqb a c || string_includes s' c
  end.

(** v.includes("#"): the string method, the array method, or a TypeError
    when [v] has no such method. *)
Definition includes_hash (v : option json) : completion bool :=
  match v with
  | Some (JString s) => Normal (string_includes s "#")
  | Some (JArray l) =>
      Normal (existsb (λ x, match x with JString s => String.eqb s "#" | _ => false end) l)
  | None | Some JNull => Throw (TypeError "Cannot read properties of undefined")
  | Some _ => Throw (TypeError "includes is not a function")
  end.

(** *** URLSearchParams *)

Inductive URLSearchParamsInit : Type :=
| InitUndefined
| InitString (s : string)
| InitSequence (l : list (string * string))
| InitRecord (o : list (string * option json)).

Definition hexdigit (n : Z) : ascii :=
  if n <? 10 then char (48 + n) else char (55 + n).

(** The percent-encoding of one byte by the urlencoded serializer: ASCII
    letters and digits and the four characters * - . _ stay, a space
    becomes a plus sign. *)
Definition urlencode_byte (c : ascii) : string :=
  let n := code c in
  if ((48 <=? n) && (n <=? 57)) || ((65 <=? n) && (n <=? 90))
     || ((97 <=? n) && (n <=? 122))
     || (n =? 42) || (n =? 45) || (n =? 46) || (n =? 95)
  then String c EmptyString
  else if n =? 32 then "+"
  else String "%" (String (hexdigit (n `div` 16)) (String (hexdigit (n `mod` 16)) EmptyString)).

Fixpoint urlencode (s : string) : string :=
  match s with
  | EmptyString => EmptyString
  | String c s' => urlencode_byte c +:+ urlencode s'
  end.

(** params.toString() *)
Definition URLSearchParams_toString (l : list (string * string)) : string :=
  GenerateProviders.join "&" (map (λ nv, urlencode nv.1 +:+ "=" +:+ urlencode nv.2) l).

(** *** fetch and the page *)

Record RequestInit : Type := {
  method : string;
  init_headers : list (string * string);
  body : list (string * string);
}.

(** A Response, as far as the helpers read it: the outcome of .json(). *)
Record Response : Type := { json_body : completion json }.

(** A client program: what it asks of the browser, and how it goes on. *)
Inductive Client (A : Type) : Type :=
| Done (r : completion A)
| Fetch (input : string) (init : option RequestInit) (k : completion Response → Client A)
| SetLocationHref (url : string) (k : Client A)
| LocationReload (k : Client A).
Arguments Done {A} r.
Arguments Fetch {A} input init k.
Arguments SetLocationHref {A} url k.
Arguments LocationReload {A} k.

Fixpoint client_bind {A B} (f : A → Client B) (c : Client A) : Client B :=
  match c with
  | Done (Normal a) => f a
  | Done (Throw e) => Done (Throw e)
  | Fetch input init k => Fetch input init (λ r, client_bind f (k r))
  | SetLocationHref url k => SetLocationHref url (client_bind f k)
  | LocationReload k => LocationReload (client_bind f k)
  end.

#[global] Instance client_mret : MRet Client := λ A a, Done (Normal a).
#[global] Instance client_mbind : MBind Client := λ A B f c, client_bind f c.

(** await fetch(input, init): a rejected promise is thrown. *)
Definition fetch (input : string) (init : option RequestInit) : Client Response :=
  Fetch input init Done.

Definition lift {A} (c : completion A) : Client A := Done c.
Definition set_location_href (url : string) : Client unit :=
  SetLocationHref url (Done (Normal ())).
Definition location_reload : Client unit := LocationReload (Done (Normal ())).

(** What the browser saw. *)
Inductive Event : Type :=
| Fetched (input : string) (init : option RequestInit)
| HrefSet (url : string)
| Reloaded.

(** Running a program against a network that answers each fetch from the
    events so far. *)
Fixpoint run {A} (network : list Event → string → option RequestInit → completion Response)
    (history : list Event) (c : Client A) : list Event * completion A :=
  match c with
  | Done r => (history, r)
  | Fetch input init k =>
      run network (history ++ [Fetched input init]) (k (network history input init))
  | SetLocationHref url k => run network (history ++ [HrefSet url]) k
  | LocationReload k => run network (history ++ [Reloaded]) k
  end.

(** s.toUpperCase() on ASCII letters. *)
Definition upper (c : ascii) : ascii :=
  let n := code c in
  if (97 <=? n) && (n <=? 122) then char (n - 32) else c.

Fixpoint toUpperCase (s : string) : string :=
  match s with
  | EmptyString => EmptyString
  | String c s' => String (upper c) (toUpperCase s')
  end.

(** The method of the request fetch sends: GET without an init; the six
    methods the Fetch standard normalizes are upper-cased, any other is
    kept as written. *)
Definition request_method (init : option RequestInit) : string :=
  match init with
  | None => "GET"
  | Some i =>
      let m := toUpperCase (method i) in
      if GenerateProviders.includes ["DELETE"; "GET"; "HEAD"; "OPTIONS"; "POST"; "PUT"] m
      then m else method i
  end.

Section Client.

(** The urlencoded parser of the URL standard, which
    [new URLSearchParams(s)] applies to a string [s]. *)
Variable parse_urlencoded : string → list (string * string).

(** new URLSearchParams(init) *)
Definition new_URLSearchParams (init : URLSearchParamsInit) : list (string * string) :=
  match init with
  | InitUndefined => []
  | InitString s =>
      parse_urlencoded
        match s with
        | String "?" s' => s'
        | _ => s
        end
  | InitSequence l => l
  | InitRecord o => map (λ kv, (kv.1, ToString_opt kv.2)) o
  end.

Definition form_headers : list (string * string) :=
  [("Content-Type", "application/x-www-form-urlencoded");
   ("X-Auth-Return-Redirect", "1")].

(** export async function signIn(providerId, options, authorizationParams)
    [base] is the import from $app/paths, [location_href] is
    window.location.href when the call starts. *)
Definition signIn (base : option string) (location_href : string)
    (providerId : option string) (options : option (list (string * option json)))
    (authorizationParams : URLSearchParamsInit) : Client (option Response) :=
  let opts := default [] options in
  let callbackUrl := default (JString location_href) (get "callbackUrl" opts) in
  let redirect := default (JBool true) (get "redirect" opts) in
  let isCredentials := bool_decide (providerId = Some "credentials") in
  let isEmail := bool_decide (providerId = Some "email") in
  let isSupportingReturn := isCredentials || isEmail in
  let basePath := default "" base in
  let signInUrl :=
    basePath +:+ "/auth/" +:+ (if isCredentials then "callback" else "signin")
    +:+ "/" +:+ default "undefined" providerId in
  let _signInUrl :=
    signInUrl +:+ "?" +:+ URLSearchParams_toString (new_URLSearchParams authorizationParams) in
  csrfTokenResponse ← fetch (basePath +:+ "/auth/csrf") None;
  csrfJson ← lift (json_body csrfTokenResponse);
  csrfToken ← lift (get_property csrfJson "csrfToken");
  res ← fetch _signInUrl
    (Some {| method := "post";
             init_headers := form_headers;
             body := new_URLSearchParams
               (InitRecord
                  (set "callbackUrl" (Some callbackUrl)
                     (set "csrfToken" csrfToken (spread options [])))) |});
  data ← lift (json_body res);
  if ToBoolean redirect || negb isSupportingReturn then
    url ← lift (get_property data "url");
    set_location_href (ToString (nullish url callbackUrl));;
    hash ← lift (includes_hash url);
    (if hash : bool then location_reload else mret ());;
    mret None
  else mret (Some res).

(** export async function signOut(options) *)
Definition signOut (base : option string) (location_href : string)
    (options : option (list (string * option json))) : Client unit :=
  let opts := default [] options in
  let callbackUrl := default (JString location_href) (get "callbackUrl" opts) in
  let basePath := default "" base in
  csrfTokenResponse ← fetch (basePath +:+ "/auth/csrf") None;
  csrfJson ← lift (json_body csrfTokenResponse);
  csrfToken ← lift (get_property csrfJson "csrfToken");
  res ← fetch (basePath +:+ "/auth/signout")
    (Some {| method := "post";
             init_headers := form_headers;
             body := new_URLSearchParams
               (InitRecord
                  (set "callbackUrl" (Some callbackUrl)
                     (set "csrfToken" csrfToken []))) |});
  data ← lift (json_body res);
  dataUrl ← lift (get_property data "url");
  let url := nullish dataUrl callbackUrl in
  set_location_href (ToString url);;
  hash ← lift (includes_hash (Some url));
  if hash : bool then location_reload else mret ().

End Client.

(** *** Vocabulary of the statements about the client helpers *)

(** The property names of an object. *)
Definition keys (o : list (string * option json)) : list string := map fst o.

Definition is_fetch (e : Event) : bool :=
  match e with
  | Fetched _ _ => true
  | HrefSet _ | Reloaded => false
  end.

(** A program that makes no request. *)
Fixpoint fetch_free {A} (c : Client A) : Prop :=
  match c with
  | Done _ => True
  | Fetch _ _ _ => False
  | SetLocationHref _ k => fetch_free k
  | LocationReload k => fetch_free k
  end.

(** The csrfToken property of the JSON that the network answers to the
    first request for [url], when that answer can be read. *)
Definition fetched_csrfToken
    (network : list Event → string → option RequestInit → completion Response)
    (url : string) : completion (option json) :=
  response ← network [] url None;
  j ← json_body response;
  get_property j "csrfToken".

(** A POST with a urlencoded form body that carries [token] as its only
    csrfToken field. *)
Definition form_post_with_token (init : option RequestInit) (token : option json) : Prop :=
  request_method init = "POST"
  ∧ ∃ i, init = Some i
    ∧ In ("Content-Type", "application/x-www-form-urlencoded") (init_headers i)
    ∧ List.filter (λ nv, String.eqb nv.1 "csrfToken") (body i)
      = [("csrfToken", ToString_opt token)].

(** A trace starts with the request for the CSRF token. When its answer
    cannot be read nothing else is requested; otherwise exactly one more
    request follows, a form POST to [postUrl] that carries the token of
    that answer. *)
Definition csrf_then_post
    (network : list Event → string → option RequestInit → completion Response)
    (basePath postUrl : string) (trace : list Event) : Prop :=
  match fetched_csrfToken network (basePath +:+ "/auth/csrf") with
  | Throw _ => trace = [Fetched (basePath +:+ "/auth/csrf") None]
  | Normal token =>
      ∃ init rest,
        trace = Fetched (basePath +:+ "/auth/csrf") None
                :: Fetched postUrl (Some init) :: rest
        ∧ Forall (λ e, is_fetch e = false) rest
        ∧ form_post_with_token (Some init) token
  end.

(** The address signIn posts to. *)
Definition signIn_address (basePath providerId query : string) : string :=
  basePath +:+ "/auth/"
  +:+ (if String.eqb providerId "credentials" then "callback" else "signin")
  +:+ "/" +:+ providerId +:+ "?" +:+ query.

End SvelteKitClient.

(** ** The MikroORM adapter (index.ts of the adapter package) *)

Module MikroOrmAdapter.

(** The value of a column. *)
Inductive value : Type :=
| VString (s : string)
| VDate (ms : Z)
| VNull.

#[global] Instance value_eq_dec : EqDecision value.
Proof. solve_decision. Defined.

Inductive Model : Type :=
| UserModel
| AccountModel
| SessionModel
| VerificationTokenModel.

(** The rows of the four tables; a row maps property names to values. *)
Record Database : Type := {
  User : list (gmap string value);
  Account : list (gmap string value);
  Session : list (gmap string value);
  VerificationToken : list (gmap string value);
}.

Definition rows (m : Model) (db : Database) : list (gmap string value) :=
  match m with
  | UserModel => User db
  | AccountModel => Account db
  | SessionModel => Session db
  | VerificationTokenModel => VerificationToken db
  end.

Definition set_rows (m : Model) (l : list (gmap string value)) (db : Database) : Database :=
  match m with
  | UserModel =>
      {| User := l; Account := Account db; Session := Session db;
         VerificationToken := VerificationToken db |}
  | AccountModel =>
      {| User := User db; Account := l; Session := Session db;
         VerificationToken := VerificationToken db |}
  | SessionModel =>
      {| User := User db; Account := Account db; Session := l;
         VerificationToken := VerificationToken db |}
  | VerificationTokenModel =>
      {| User := User db; Account := Account db; Session := Session db;
         VerificationToken := l |}
  end.

(** A managed entity: the row it was loaded from and its properties. *)
Record Entity : Type := {
  model : Model;
  row : nat;
  props : gmap string value;
}.

(** An operation of the entity manager: it reads and writes the database
    and may throw; a throw keeps what was flushed before it. *)
Definition EM (A : Type) : Type := Database → completion A * Database.

#[global] Instance em_ret : MRet EM := λ A a db, (Normal a, db).

#[global] Instance em_bind : MBind EM := λ A B f c db,
  match c db with
  | (Normal a, db') => f a db'
  | (Throw e, db') => (Throw e, db')
  end.

Definition throw {A} (e : JSError) : EM A := λ db, (Throw e, db).

(** A row satisfies a where-clause when it has every property of it. *)
Definition satisfies (where_ : gmap string value) (r : gmap string value) : bool :=
  bool_decide (map_Forall (λ k v, r !! k = Some v) where_).

(** The index of the first row that satisfies the where-clause. *)
Fixpoint find_row (where_ : gmap string value) (l : list (gmap string value)) : option nat :=
  match l with
  | [] => None
  | r :: l' => if satisfies where_ r then Some O else S <$> find_row where_ l'
  end.

(** em.findOne(Model, where) *)
Definition findOne (m : Model) (where_ : gmap string value) : EM (option Entity) :=
  λ db,
    (Normal
       (i ← find_row where_ (rows m db);
        r ← rows m db !! i;
        Some {| model := m; row := i; props := r |}),
     db).

(** em.persistAndFlush(entity) for a managed entity: its row is written. *)
Definition persistAndFlush (e : Entity) : EM unit :=
  λ db, (Normal (), set_rows (model e) (<[row e := props e]> (rows (model e) db)) db).

(** em.removeAndFlush(entity): its row is deleted. *)
Definition removeAndFlush (e : Entity) : EM unit :=
  λ db, (Normal (), set_rows (model e) (delete (row e) (rows (model e) db)) db).

(** entity.assign(data): the properties of [data] are written over those
    of the entity. *)
Definition assign (e : Entity) (data : gmap string value) : Entity :=
  {| model := model e; row := row e; props := data ∪ props e |}.

(** wrap(entity).assign(data) on an entity that may be null: wrap(null) is
    null, and calling a method on it is a TypeError. *)
Definition wrap_assign (e : option Entity) (data : gmap string value) : EM (option Entity) :=
  match e with
  | None => throw (TypeError "Cannot read properties of null (reading 'assign')")
  | Some e => mret (Some (assign e data))
  end.

(** wrap(entity).toObject() *)
Definition toObject (e : Entity) : gmap string value := props e.

(** Partial<AdapterSession> & Pick<AdapterSession, "sessionToken"> *)
Record SessionData : Type := {
  sessionToken : string;
  userId : option string;
  expires : option Z;
}.

Definition optional (k : string) (v : option value) (o : gmap string value)
  : gmap string value :=
  match v with
  | None => o
  | Some x => <[k := x]> o
  end.

(** The object that [data] is. *)
Definition session_object (data : SessionData) : gmap string value :=
  optional "expires" (VDate <$> expires data)
    (optional "userId" (VString <$> userId data)
       {[ "sessionToken" := VString (sessionToken data) ]}).

(** async updateSession(data) *)
Definition updateSession (data : SessionData) : EM (gmap string value) :=
  session ← findOne SessionModel {[ "sessionToken" := VString (sessionToken data) ]};
  session ← wrap_assign session (session_object data);
  match session with
  | None => throw (Error "Session not found")
  | Some session =>
      persistAndFlush session;;
      mret (toObject session)
  end.

(** async updateUser(data): the sibling of updateSession; [id] is data.id. *)
Definition updateUser (id : value) (data : gmap string value) : EM (gmap string value) :=
  user ← findOne UserModel {[ "id" := id ]};
  match user with
  | None => throw (Error "User not found")
  | Some user =>
      let user := assign user data in
      persistAndFlush user;;
      mret (toObject user)
  end.

(** async deleteSession(sessionToken) *)
Definition deleteSession (sessionToken : string) : EM (option (gmap string value)) :=
  session ← findOne SessionModel {[ "sessionToken" := VString sessionToken ]};
  match session with
  | None => mret None
  | Some session =>
      removeAndFlush session;;
      mret (Some (toObject session))
  end.

(** async useVerificationToken(params) *)
Definition useVerificationToken (params : gmap string value)
  : EM (option (gmap string value)) :=
  verificationToken ← findOne VerificationTokenModel params;
  match verificationToken with
  | None => mret None
  | Some verificationToken =>
      removeAndFlush verificationToken;;
      mret (Some (toObject verificationToken))
  end.

(** { identifier, token } *)
Definition token_params (identifier token : string) : gmap string value :=
  {[ "identifier" := VString identifier; "token" := VString token ]}.

End MikroOrmAdapter.

(** ** Stand-ins for the libraries, used to run the code on examples *)

Module StandIns.

Import Jwt.

(** A key of [n] bytes: the bytes of [ikm], cut or filled with zeros. *)
Fixpoint fill (n : nat) (ikm : string) : string :=
  match n with
  | O => EmptyString
  | S n' =>
      match ikm with
      | EmptyString => String "0" (fill n' EmptyString)
      | String c ikm' => String c (fill n' ikm')
      end
  end.

Definition hkdf (digest ikm salt info : string) (keylen : nat) : string :=
  fill keylen ikm.

(** A sealed box that holds one claims set [claims] under header [h] and
    key [key], and whose text is [text]. *)
Definition jweEncrypt (text : string)
  : JWEHeader → string → gmap string json → string → string :=
  λ _ _ _ _, text.

Definition jweDecrypt (text key : string) (h : JWEHeader) (claims : gmap string json)
  : string → string → completion (JWEHeader * gmap string json) :=
  λ token k,
    if String.eqb token text && String.eqb k key then Normal (h, claims)
    else Throw (JOSEError "ERR_JWE_DECRYPTION_FAILED").

(** Modelled from the spec: the cookie session store of lib/cookie.js, which
    is not among the sources; it reads the cookie of the given name. *)
Definition SessionStore_value (name : string) (secure : bool)
    (cookies : option (gmap string string)) (headers : RequestHeaders) : string :=
  default EmptyString (cookies ≫= (λ c, c !! name)).

(** A network that answers every request with the same JSON. *)
Definition network (j : json)
  : list SvelteKitClient.Event → string → option SvelteKitClient.RequestInit
    → completion SvelteKitClient.Response :=
  λ _ _ _, Normal {| SvelteKitClient.json_body := Normal j |}.

(** A decryption that rejects every token. *)
Definition reject_all : string → string → completion (JWEHeader * gmap string json) :=
  λ _ _, Throw (JOSEError "ERR_JWE_DECRYPTION_FAILED").

(** A process environment with none of the three variables set. *)
Definition empty_env : ProcessEnv :=
  {| NEXTAUTH_URL := None; VERCEL := None; AUTH_SECRET := None |}.

End StandIns.

(** ** The MikroORM adapter: the other operations *)

Module MikroOrmAdapterRest.

Import MikroOrmAdapter.

(** wrap(entity).toObject() on an entity that may be null. *)
Definition wrap_toObject (e : option Entity) : EM (gmap string value) :=
  match e with
  | None => throw (TypeError "Cannot read properties of null (reading 'toObject')")
  | Some e => mret (toObject e)
  end.

(** async unlinkAccount(provider_providerAccountId) *)
Definition unlinkAccount (provider_providerAccountId : gmap string value)
  : EM (gmap string value) :=
  account ← findOne AccountModel provider_providerAccountId;
  match account with
  | None => throw (Error "Account not found")
  | Some account =>
      removeAndFlush account;;
      mret (toObject account)
  end.

(** async getUser(id) *)
Definition getUser (id : string) : EM (option (gmap string value)) :=
  user ← findOne UserModel {[ "id" := VString id ]};
  match user with
  | None => mret None
  | Some user => mret (Some (toObject user))
  end.

(** async getUserByEmail(email) *)
Definition getUserByEmail (email : string) : EM (option (gmap string value)) :=
  user ← findOne UserModel {[ "email" := VString email ]};
  match user with
  | None => mret None
  | Some user => mret (Some (toObject user))
  end.

Section WithDatabase.

(** What the schema and the ORM decide, declared with the entities
    (lib/entities.js) and not in the adapter:
    [rejects m rows r] is the exception of the driver when the table of
    [m], holding [rows], refuses the new row [r], and [None] when it takes
    it; [findOne_undefined_id] is em.findOne(UserModel, { id: undefined }). *)
Variable rejects : Model → list (gmap string value) → gmap string value → option JSError.
Variable findOne_undefined_id : EM (option Entity).

(** em.persistAndFlush on an entity made with [new]: the row is inserted
    after the rows of its table, unless the database refuses it. *)
Definition insertAndFlush (m : Model) (r : gmap string value) : EM Entity :=
  λ db,
    match rejects m (rows m db) r with
    | Some e => (Throw e, db)
    | None =>
        (Normal {| model := m; row := length (rows m db); props := r |},
         set_rows m (rows m db ++ [r]) db)
    end.

(** async getUserByAccount(provider_providerAccountId) *)
Definition getUserByAccount (provider_providerAccountId : gmap string value)
  : EM (option (gmap string value)) :=
  account ← findOne AccountModel provider_providerAccountId;
  match account with
  | None => mret None
  | Some account =>
      user ←
        match props account !! "userId" with
        | Some userId => findOne UserModel {[ "id" := userId ]}
        | None => findOne_undefined_id
        end;
      u ← wrap_toObject user;
      mret (Some u)
  end.

(** AdapterAccount: the user it belongs to, and its other properties. *)
Record AccountData : Type := {
  account_userId : string;
  account_fields : gmap string value;
}.

Definition account_object (data : AccountData) : gmap string value :=
  <["userId" := VString (account_userId data)]> (account_fields data).

(** async linkAccount(data); [constructed] is what new AccountModel()
    holds. Persisting the user inserts the account added to its
    collection. *)
Definition linkAccount (constructed : gmap string value) (data : AccountData)
  : EM (gmap string value) :=
  user ← findOne UserModel {[ "id" := VString (account_userId data) ]};
  match user with
  | None => throw (Error "User not found")
  | Some user =>
      let account := account_object data ∪ constructed in
      account ← insertAndFlush AccountModel account;
      mret (toObject account)
  end.

(** { sessionToken, userId, expires } *)
Record NewSession : Type := {
  new_sessionToken : string;
  new_userId : string;
  new_expires : Z;
}.

Definition new_session_object (data : NewSession) : gmap string value :=
  {[ "sessionToken" := VString (new_sessionToken data);
     "userId" := VString (new_userId data);
     "expires" := VDate (new_expires data) ]}.

(** async createSession(data); [constructed] is what new SessionModel()
    holds. *)
Definition createSession (constructed : gmap string value) (data : NewSession)
  : EM (gmap string value) :=
  user ← findOne UserModel {[ "id" := VString (new_userId data) ]};
  match user with
  | None => throw (Error "User not found")
  | Some user =>
      let session := new_session_object data ∪ constructed in
      session ← insertAndFlush SessionModel session;
      mret (toObject session)
  end.

(** async createVerificationToken(data) *)
Definition createVerificationToken (constructed data : gmap string value)
  : EM (gmap string value) :=
  let verificationToken := data ∪ constructed in
  verificationToken ← insertAndFlush VerificationTokenModel verificationToken;
  mret (toObject verificationToken).

End WithDatabase.

(** *** The entities handed to MikroORM.init by getEM *)

(** An element of ormOptions.entities: a path, or an entity class or
    schema, which may have a string [name]; [ident] tells objects apart. *)
Inductive EntityOption : Type :=
| EntityPath (path : string)
| EntityObject (name : option string) (ident : nat).

(** The callback of ormOptions.entities?.filter *)
Definition keep_entity (e : EntityOption) : bool :=
  match e with
  | EntityObject (Some name) _ =>
      negb (GenerateProviders.includes
              ["User"; "Account"; "Session"; "VerificationToken"] name)
  | _ => true
  end.

(** The value getEM assigns to ormOptions.entities before MikroORM.init. *)
Definition init_entities (entities : option (list EntityOption))
    (UserModel AccountModel SessionModel VerificationTokenModel : EntityOption)
  : list EntityOption :=
  let optionsEntities := default [] (List.filter keep_entity <$> entities) in
  optionsEntities ++ [UserModel; AccountModel; SessionModel; VerificationTokenModel].

(** The name of an entity option, when it has one. *)
Definition entity_name (e : EntityOption) : option string :=
  match e with
  | EntityPath _ => None
  | EntityObject name _ => name
  end.

(** An entity option that is an object named like one of the four default
    entities. *)
Definition default_named (e : EntityOption) : bool :=
  match entity_name e with
  | Some name =>
      bool_decide (name = "User" ∨ name = "Account" ∨ name = "Session"
                   ∨ name = "VerificationToken")
  | None => false
  end.

(** The number of entity options in [l] that carry the name [name]. *)
Definition named_count (name : string) (l : list EntityOption) : nat :=
  length (List.filter (λ e, bool_decide (entity_name e = Some name)) l).

End MikroOrmAdapterRest.

(** ** Vocabulary of further statements *)

Module Vocabulary.

Import JSString Jwt SvelteKitClient.

(** The "exp" claim of a payload, if any, is a number later than the clock
    [t] less the tolerance of 15 seconds. *)
Definition unexpired (payload : gmap string json) (t : Z) : Prop :=
  match payload !! "exp" with
  | None => True
  | Some (JNumber n) => epoch t - 15 < n
  | Some _ => False
  end.

(** {basePath}/auth/csrf *)
Definition csrf_url (base : option string) : string :=
  default "" base +:+ "/auth/csrf".

(** callbackUrl, after its default. *)
Definition callbackUrl_of (location_href : string)
    (options : option (list (string * option json))) : json :=
  default (JString location_href) (get "callbackUrl" (default [] options)).

(** The second argument of the POST of signIn, for a fetched [token]. *)
Definition signIn_init (parse : string → list (string * string)) (location_href : string)
    (options : option (list (string * option json))) (token : option json) : RequestInit :=
  {| method := "post";
     init_headers := form_headers;
     body := new_URLSearchParams parse
       (InitRecord
          (set "callbackUrl" (Some (callbackUrl_of location_href options))
             (set "csrfToken" token (spread options [])))) |}.

(** The second argument of the POST of signOut. *)
Definition signOut_init (parse : string → list (string * string)) (location_href : string)
    (options : option (list (string * option json))) (token : option json) : RequestInit :=
  {| method := "post";
     init_headers := form_headers;
     body := new_URLSearchParams parse
       (InitRecord
          (set "callbackUrl" (Some (callbackUrl_of location_href options))
             (set "csrfToken" token []))) |}.

(** _signInUrl *)
Definition signIn_url (parse : string → list (string * string)) (base : option string)
    (providerId : option string) (authorizationParams : URLSearchParamsInit) : string :=
  (default "" base +:+ "/auth/"
   +:+ (if bool_decide (providerId = Some "credentials") then "callback" else "signin")
   +:+ "/" +:+ default "undefined" providerId)
  +:+ "?" +:+ URLSearchParams_toString (new_URLSearchParams parse authorizationParams).

(** isSupportingReturn *)
Definition isSupportingReturn (providerId : option string) : bool :=
  bool_decide (providerId = Some "credentials") || bool_decide (providerId = Some "email").

(** redirect, after its default, as a condition. *)
Definition redirect_of (options : option (list (string * option json))) : bool :=
  ToBoolean (default (JBool true) (get "redirect" (default [] options))).

(** The events of a reload when [url] has a hash. *)
Definition reload_if_hash (url : string) : list Event :=
  if string_includes url "#" then [Reloaded] else [].

End Vocabulary.

(** ** jwt.ts on payload objects that hold any values *)

(** [Jwt.encode] above takes a payload whose fields are JSON data already.
    jwt.ts types the payload as an object with fields of any type, and jose
    writes it out with JSON.stringify; this module follows encode on such
    objects, with their properties in order. *)
Module JwtObjects.

Import Jwt.

(** The value of a payload field. [JSOther] is any value that is none of
    the others, given by what JSON.stringify and then JSON.parse make of a
    property that holds it: the value read back, [None] when the property
    is left out, or the error JSON.stringify throws. *)
Inductive jsvalue : Type :=
| JSJson (j : json)
| JSUndefined
| JSDate (toISOString : string)
| JSOther (stringified : completion (option json)).

(** What a property holding [v] reads as after JSON.stringify and
    JSON.parse: JSON data is itself, undefined is left out, a Date is the
    string of its toISOString(). *)
Definition JSON_value (v : jsvalue) : completion (option json) :=
  match v with
  | JSJson j => Normal (Some j)
  | JSUndefined => Normal None
  | JSDate iso => Normal (Some (JString iso))
  | JSOther r => r
  end.

(** { ...o, [k]: v }: a property that is there keeps its place, a new one
    comes last. *)
Fixpoint set_property (k : string) (v : jsvalue) (o : list (string * jsvalue))
  : list (string * jsvalue) :=
  match o with
  | [] => [(k, v)]
  | kv :: r => if String.eqb kv.1 k then (k, v) :: r else kv :: set_property k v r
  end.

(** JSON.stringify(o), as the members of the JSON object it writes, in
    order; the first property that cannot be written throws. *)
Fixpoint JSON_stringify (o : list (string * jsvalue)) : completion (list (string * json)) :=
  match o with
  | [] => Normal []
  | kv :: r =>
      j ← JSON_value kv.2;
      members ← JSON_stringify r;
      Normal (match j with
              | Some j => (kv.1, j) :: members
              | None => members
              end)
  end.

(** JSON.parse of the JSON object with these members, as the map from its
    property names: of two members of one name the later one counts. *)
Definition JSON_parse (members : list (string * json)) : gmap string json :=
  list_to_map (reverse members).

(** The state of an [EncryptJWT] builder. *)
Record EncryptJWT : Type := {
  _payload : list (string * jsvalue);
  _protectedHeader : option JWEHeader;
}.

Definition new_EncryptJWT (payload : list (string * jsvalue)) : EncryptJWT :=
  {| _payload := payload; _protectedHeader := None |}.

Definition setProtectedHeader (h : JWEHeader) (b : EncryptJWT) : EncryptJWT :=
  {| _payload := _payload b; _protectedHeader := Some h |}.

Definition setClaim (name : string) (v : json) (b : EncryptJWT) : EncryptJWT :=
  {| _payload := set_property name (JSJson v) (_payload b);
     _protectedHeader := _protectedHeader b |}.

Definition setIssuedAt (Date_now : Z) : EncryptJWT → EncryptJWT :=
  setClaim "iat" (JNumber (epoch Date_now)).

Definition setExpirationTime (n : Z) : EncryptJWT → EncryptJWT :=
  setClaim "exp" (JNumber n).

Definition setJti (jti : string) : EncryptJWT → EncryptJWT :=
  setClaim "jti" (JString jti).

Record JWTEncodeParams : Type := {
  token : option (list (string * jsvalue));
  secret : string;
  maxAge : option Z;
}.

Section Jose.

(** [jweEncryptText h key members iv] is jose's compact JWE encryption,
    under protected header [h], of the JSON text with these members. *)
Variable hkdf : string → string → string → string → nat → string.
Variable jweEncryptText : JWEHeader → string → list (string * json) → string → string.

(** EncryptJWT.encrypt(key): the payload is written out with
    JSON.stringify, then sealed; a protected header is required. *)
Definition encrypt (b : EncryptJWT) (key : string) (iv : string) : completion string :=
  members ← JSON_stringify (_payload b);
  match _protectedHeader b with
  | None => Throw (JOSEError "ERR_JWE_INVALID")
  | Some h => Normal (jweEncryptText h key members iv)
  end.

(** export async function encode(params) *)
Definition encode (env : EncodeEnv) (params : JWTEncodeParams) : completion string :=
  let token := default [] (token params) in
  let secret := secret params in
  let maxAge := default DEFAULT_MAX_AGE (maxAge params) in
  let encryptionSecret := getDerivedEncryptionKey hkdf secret in
  let b0 := new_EncryptJWT token in
  let b1 := setProtectedHeader {| alg := "dir"; enc := "A256GCM" |} b0 in
  let b2 := setIssuedAt (issuedAt_clock env) b1 in
  let b3 := setExpirationTime (now (now_clock env) + maxAge) b2 in
  let b4 := setJti (randomUUID env) b3 in
  encrypt b4 encryptionSecret (iv env).

End Jose.

(** *** Vocabulary of the statements *)

(** The object encode writes out: the payload with iat, exp and jti set. *)
Definition issued_object (env : EncodeEnv) (params : JWTEncodeParams)
  : list (string * jsvalue) :=
  set_property "jti" (JSJson (JString (randomUUID env)))
    (set_property "exp"
       (JSJson (JNumber (now (now_clock env) + default DEFAULT_MAX_AGE (maxAge params))))
       (set_property "iat" (JSJson (JNumber (epoch (issuedAt_clock env))))
          (default [] (token params)))).

(** A payload of JSON data, as an object. *)
Definition of_json (p : list (string * json)) : list (string * jsvalue) :=
  (λ kj, (kj.1, JSJson kj.2)) <$> p.

(** The "nbf" field of a payload object, if it has one, is written out as
    nothing or as a number that passes jose's check at clock [t] with the
    tolerance of 15 seconds. *)
Definition not_before_passes (p : list (string * jsvalue)) (t : Z) : Prop :=
  ∀ v, ("nbf", v) ∈ p →
    JSON_value v = Normal None
    ∨ ∃ n, JSON_value v = Normal (Some (JNumber n)) ∧ n <= epoch t + 15.

(** The round trip in the words of the specification: decoding the token
    that encode issued for [p] succeeds and returns a payload that has
    every field of [p] with its value unchanged. *)
Definition round_trip_as_stated
    (hkdf : string → string → string → string → nat → string)
    (jweEncryptText : JWEHeader → string → list (string * json) → string → string)
    (jweDecrypt : string → string → completion (JWEHeader * gmap string json))
    (env : EncodeEnv) (decode_clock : Z)
    (p : list (string * jsvalue)) (s : string) (maxAge : Z) : Prop :=
  ∃ token p',
    encode hkdf jweEncryptText env
      {| token := Some p; secret := s; maxAge := Some maxAge |} = Normal token
    ∧ decode hkdf jweDecrypt decode_clock
        {| dec_token := Some token; dec_secret := s |} = Normal (Some p')
    ∧ ∀ k v, (k, v) ∈ p → ∃ j, v = JSJson j ∧ p' !! k = Some j.

(** *** A sealed box to run the code on examples *)

(** The members encode writes out for [p], when it can. *)
Definition members_of (env : EncodeEnv) (p : list (string * jsvalue)) (s : string)
    (maxAge : Z) : list (string * json) :=
  match JSON_stringify
          (issued_object env {| token := Some p; secret := s; maxAge := Some maxAge |}) with
  | Normal members => members
  | Throw _ => []
  end.

(** An encryption whose token is always the text e.e.e.e.e, and the
    decryption that opens this token, under the key derived from [s], to
    the JSON text written out for [p]. *)
Definition box_encrypt : JWEHeader → string → list (string * json) → string → string :=
  λ _ _ _ _, "e.e.e.e.e".

Definition box_decrypt (env : EncodeEnv) (p : list (string * jsvalue)) (s : string)
    (maxAge : Z) : string → string → completion (JWEHeader * gmap string json) :=
  StandIns.jweDecrypt "e.e.e.e.e" (getDerivedEncryptionKey StandIns.hkdf s)
    A256GCM_dir (JSON_parse (members_of env p s maxAge)).

End JwtObjects.

(** ** Sample inputs *)

Module Samples.

Import Jwt.

Definition env : EncodeEnv :=
  {| issuedAt_clock := 1700000000000; now_clock := 1700000000000;
     randomUUID := "3f0c"; iv := "i" |}.

Definition payload : gmap string json := {[ "name" := JString "Ada" ]}.

Definition claims : gmap string json :=
  issued_claims env
    {| enc_token := Some payload; enc_secret := "secret"; enc_maxAge := Some 60 |}.

Definition key : string :=
  StandIns.hkdf "sha256" "secret" "" "Auth.js Generated Encryption Key" 32.

(** A request that carries the token "e.e.e.e.e" in the session cookie. *)
Definition request : Req :=
  {| cookies := Some {[ "next-auth.session-token" := "e.e.e.e.e" ]};
     headers := HeadersRecord ∅ |}.

Definition params : GetTokenParams :=
  {| req := Some request; secureCookie := None; cookieName := None;
     raw := None; decode_param := None; secret := Some "secret" |}.

(** A request with no cookie and the given Authorization header. *)
Definition bearer_request (h : string) : Req :=
  {| cookies := Some ∅; headers := HeadersRecord {[ "authorization" := h ]} |}.

Definition bearer_params (h : string) (raw : option bool) : GetTokenParams :=
  {| req := Some (bearer_request h); secureCookie := None; cookieName := None;
     raw := raw; decode_param := None; secret := Some "secret" |}.

(** A database that takes every row. *)
Definition accepts_all
  : MikroOrmAdapter.Model → list (gmap string MikroOrmAdapter.value)
    → gmap string MikroOrmAdapter.value → option JSError :=
  λ _ _ _, None.

(** A lookup by an undefined id that finds nothing. *)
Definition finds_nothing : MikroOrmAdapter.EM (option MikroOrmAdapter.Entity) :=
  λ db, (Normal None, db).

Definition ada : gmap string MikroOrmAdapter.value :=
  {[ "id" := MikroOrmAdapter.VString "u1";
     "email" := MikroOrmAdapter.VString "ada@example.org" ]}.

Definition ada_session : gmap string MikroOrmAdapter.value :=
  {[ "id" := MikroOrmAdapter.VString "s-id-1";
     "sessionToken" := MikroOrmAdapter.VString "s1";
     "userId" := MikroOrmAdapter.VString "u1";
     "expires" := MikroOrmAdapter.VDate 1700000000000 ]}.

(** An account whose user is not in the table of users. *)
Definition orphan_account : gmap string MikroOrmAdapter.value :=
  {[ "provider" := MikroOrmAdapter.VString "github";
     "providerAccountId" := MikroOrmAdapter.VString "42";
     "userId" := MikroOrmAdapter.VString "gone" ]}.

Definition database : MikroOrmAdapter.Database :=
  {| MikroOrmAdapter.User := [ada];
     MikroOrmAdapter.Account := [orphan_account];
     MikroOrmAdapter.Session := [ada_session];
     MikroOrmAdapter.VerificationToken := [] |}.

End Samples.

(** * Properties *)

(** ** The builtins on sample inputs *)

Module BuiltinExamples.

Import JSString.

Example split_words : split " " "Bearer abc def" = ["Bearer"; "abc"; "def"].
Proof. reflexivity. Qed.

Example split_empty : split " " "" = [""].
Proof. reflexivity. Qed.

Example split_trailing_space : split " " "Bearer " = ["Bearer"; ""].
Proof. reflexivity. Qed.

Example decode_escapes : decodeURIComponent (Some "a%20b%2Fc") = Normal "a b/c".
Proof. reflexivity. Qed.

Example decode_euro_sign :
  decodeURIComponent (Some "%E2%82%AC")
  = Normal (String (char 226) (String (char 130) (String (char 172) ""))).
Proof. reflexivity. Qed.

Example decode_lone_percent : decodeURIComponent (Some "%") = Throw URIError.
Proof. reflexivity. Qed.

Example decode_bad_digit : decodeURIComponent (Some "%4G") = Throw URIError.
Proof. reflexivity. Qed.

Example decode_overlong : decodeURIComponent (Some "%C0%80") = Throw URIError.
Proof. reflexivity. Qed.

Example decode_cut_short : decodeURIComponent (Some "%E2%82x") = Throw URIError.
Proof. reflexivity. Qed.

Example decode_undefined : decodeURIComponent None = Normal "undefined".
Proof. reflexivity. Qed.

Example ToInt32_wraps : Jwt.ToInt32 2147483648 = -2147483648.
Proof. reflexivity. Qed.

Example now_2023 : Jwt.now 1700000000999 = 1700000000.
Proof. reflexivity. Qed.

Example indexOf_first_dot : GenerateProviders.indexOf "azure-ad.d.ts" "." = 8.
Proof. reflexivity. Qed.

Example substring_base : GenerateProviders.substring "azure-ad.d.ts" 0 8 = "azure-ad".
Proof. reflexivity. Qed.

Example substring_negative_end : GenerateProviders.substring "LICENSE" 0 (-1) = "".
Proof. reflexivity. Qed.

Example urlencode_sample :
  SvelteKitClient.urlencode "a b&c=d/~*" = "a+b%26c%3Dd%2F%7E*".
Proof. reflexivity. Qed.

Example ToString_array :
  SvelteKitClient.ToString (JArray [JNumber 1; JNull; JString "x"; JBool true]) = "1,,x,true".
Proof. reflexivity. Qed.

Example method_post_is_normalized :
  SvelteKitClient.request_method
    (Some {| SvelteKitClient.method := "post"; SvelteKitClient.init_headers := [];
             SvelteKitClient.body := [] |}) = "POST".
Proof. reflexivity. Qed.

End BuiltinExamples.

(** ** jwt.ts: clock arithmetic *)

Module JwtFacts.

Import JSString Jwt.

Lemma ToInt32_small (x : Z) : - 2 ^ 31 <= x < 2 ^ 31 → ToInt32 x = x.
Proof.
  intros Hx. unfold ToInt32.
  rewrite Z.mod_small by lia. lia.
Qed.

(** Before 19 January 2038 now() is the whole seconds of the clock. *)
Lemma now_before_2038 (Date_now : Z) :
  0 <= Date_now < 2 ^ 31 * 1000 → now Date_now = epoch Date_now.
Proof.
  intros [H0 H1]. unfold now, epoch.
  rewrite Z.quot_div_nonneg by lia.
  apply ToInt32_small. split.
  - pose proof (Z.div_pos Date_now 1000). lia.
  - apply Z.div_lt_upper_bound; lia.
Qed.

Lemma encode_unfold hkdf jweEncrypt env params :
  encode hkdf jweEncrypt env params
  = Normal (jweEncrypt A256GCM_dir
              (hkdf "sha256" (enc_secret params) "" "Auth.js Generated Encryption Key" 32%nat)
              (issued_claims env params) (iv env)).
Proof. reflexivity. Qed.

Lemma fill_length (n : nat) (ikm : string) : String.length (StandIns.fill n ikm) = n.
Proof.
  revert ikm. induction n as [|n IH]; intros ikm; [reflexivity|].
  destruct ikm; simpl; now rewrite IH.
Qed.

End JwtFacts.

(** ** jwt.ts: encode and decode *)

Module JwtEncodeDecode.

Import JSString Jwt JwtFacts.

Lemma issued_iat env params :
  issued_claims env params !! "iat" = Some (JNumber (epoch (issuedAt_clock env))).
Proof.
  unfold issued_claims.
  rewrite lookup_insert_ne by done. rewrite lookup_insert_ne by done.
  apply lookup_insert_eq.
Qed.

Lemma issued_exp env params :
  issued_claims env params !! "exp"
  = Some (JNumber (now (now_clock env) + default DEFAULT_MAX_AGE (enc_maxAge params))).
Proof.
  unfold issued_claims.
  rewrite lookup_insert_ne by done. apply lookup_insert_eq.
Qed.

Lemma issued_jti env params :
  issued_claims env params !! "jti" = Some (JString (randomUUID env)).
Proof. unfold issued_claims. apply lookup_insert_eq. Qed.

Lemma issued_other env params (k : string) :
  k ≠ "iat" → k ≠ "exp" → k ≠ "jti" →
  issued_claims env params !! k = default ∅ (enc_token params) !! k.
Proof.
  intros Hi He Hj. unfold issued_claims.
  rewrite !lookup_insert_ne by done. reflexivity.
Qed.

(** Before 2038 the expiration time is the whole seconds of the clock plus
    maxAge, 30 days when maxAge is omitted. *)
Lemma issued_exp_before_2038 env params :
  0 <= now_clock env < 2 ^ 31 * 1000 →
  issued_claims env params !! "exp"
  = Some (JNumber (epoch (now_clock env) + default 2592000 (enc_maxAge params))).
Proof.
  intros H. rewrite issued_exp, now_before_2038 by exact H. reflexivity.
Qed.

(** C9, at the first millisecond of 19 January 2038 03:14:08 UTC: with
    maxAge omitted encode sets "iat" to the current second 2147483648 but
    "exp" to -2144891648, not to the current second plus 2592000
    (2150075648): the [| 0] of now() has wrapped around. *)
Theorem C9_expiration_wraps_in_2038 hkdf jweEncrypt (s uuid iv0 : string) :
  let env := {| issuedAt_clock := 2147483648000; now_clock := 2147483648000;
                randomUUID := uuid; iv := iv0 |} in
  let params := {| enc_token := None; enc_secret := s; enc_maxAge := None |} in
  encode hkdf jweEncrypt env params
  = Normal (jweEncrypt A256GCM_dir (getDerivedEncryptionKey hkdf s)
              (issued_claims env params) iv0)
  ∧ issued_claims env params !! "iat" = Some (JNumber 2147483648)
  ∧ issued_claims env params !! "exp" = Some (JNumber (-2144891648))
  ∧ issued_claims env params !! "exp"
    ≠ Some (JNumber (epoch (now_clock env) + 2592000)).
Proof.
  intros env params. split; [reflexivity|].
  rewrite issued_iat, issued_exp. repeat split. discriminate.
Qed.

(** C2: encode seals the claims as a JWE with protected header
    alg "dir", enc "A256GCM" under the key
    hkdf("sha256", secret, "", "Auth.js Generated Encryption Key", 32),
    which has 32 bytes when hkdf returns as many bytes as it is asked for;
    decode opens a token with the key derived in the same way. *)
Theorem C2_encode_header_and_key hkdf jweEncrypt jweDecrypt env params :
  (∀ digest ikm salt info n, String.length (hkdf digest ikm salt info n) = n) →
  let key := hkdf "sha256" (enc_secret params) "" "Auth.js Generated Encryption Key" 32%nat in
  String.length key = 32%nat
  ∧ encode hkdf jweEncrypt env params
    = Normal (jweEncrypt {| alg := "dir"; enc := "A256GCM" |} key
                (issued_claims env params) (iv env))
  ∧ ∀ t token, truthy token = true →
      decode hkdf jweDecrypt t {| dec_token := Some token; dec_secret := enc_secret params |}
      = (payload ← jwtDecrypt jweDecrypt token key 15 t; Normal (Some payload)).
Proof.
  intros Hlen key. split; [apply Hlen|]. split; [reflexivity|].
  intros t token Htok. unfold decode. simpl. rewrite Htok. reflexivity.
Qed.

Lemma C2_encode_header_and_key_witness :
  let env := {| issuedAt_clock := 1700000000000; now_clock := 1700000000000;
                randomUUID := "u"; iv := "i" |} in
  let params := {| enc_token := None; enc_secret := "secret"; enc_maxAge := None |} in
  String.length (StandIns.hkdf "sha256" "secret" "" "Auth.js Generated Encryption Key" 32) = 32%nat
  ∧ encode StandIns.hkdf (StandIns.jweEncrypt "t") env params
    = Normal "t".
Proof.
  intros env params.
  pose proof (C2_encode_header_and_key StandIns.hkdf (StandIns.jweEncrypt "t")
                (λ _ _, Throw SyntaxError) env params
                (λ _ ikm _ _ n, fill_length n ikm)) as (H1 & H2 & _).
  split; [exact H1 | exact H2].
Defined.

Lemma decode_open hkdf jweDecrypt t token s h claims :
  truthy token = true →
  jweDecrypt token (getDerivedEncryptionKey hkdf s) = Normal (h, claims) →
  check_iat claims = Normal () →
  check_nbf claims (epoch t) 15 = Normal () →
  check_exp claims (epoch t) 15 = Normal () →
  decode hkdf jweDecrypt t {| dec_token := Some token; dec_secret := s |}
  = Normal (Some claims).
Proof.
  intros Htok Hdec Hiat Hnbf Hexp.
  unfold decode, jwtDecrypt. simpl. rewrite Htok. simpl.
  rewrite Hdec. simpl. rewrite Hiat. simpl. rewrite Hnbf. simpl.
  rewrite Hexp. reflexivity.
Qed.

(** decode returns null for a token that is absent or empty. *)
Lemma decode_no_token hkdf jweDecrypt t s (token : option string) :
  otruthy token = false →
  decode hkdf jweDecrypt t {| dec_token := token; dec_secret := s |} = Normal None.
Proof.
  intros H. unfold decode. simpl. destruct token as [[|]|]; done.
Qed.

End JwtEncodeDecode.

(** ** jwt.ts: getToken *)

Module GetToken.

Import JSString Jwt.

Section WithLibraries.

Variable hkdf : string → string → string → string → nat → string.
Variable jweDecrypt : string → string → completion (JWEHeader * gmap string json).
Variable SessionStore_value :
  string → bool → option (gmap string string) → RequestHeaders → string.

Lemma getToken_no_req penv t params :
  req params = None →
  getToken hkdf jweDecrypt SessionStore_value penv t params
  = Throw (Error "Must pass `req` to JWT getToken()").
Proof. intros H. unfold getToken. now rewrite H. Qed.

Lemma getToken_no_secret penv t params r :
  req params = Some r →
  otruthy (effective_secret penv params) = false →
  getToken hkdf jweDecrypt SessionStore_value penv t params
  = Throw (MissingSecret "Must pass `secret` if not set to JWT getToken()").
Proof.
  intros Hr Hs. unfold getToken. rewrite Hr.
  fold (effective_secret penv params).
  destruct (effective_secret penv params) as [[|]|]; done.
Qed.

(** With a request and a secret, getToken is: find the token, then
    return null, the token, or what decode makes of it. *)
Lemma getToken_found penv t params r sec :
  req params = Some r →
  effective_secret penv params = Some sec →
  truthy sec = true →
  let secure := effective_secureCookie penv params in
  let name := default (default_cookieName secure) (cookieName params) in
  let _decode := default (decode hkdf jweDecrypt t) (decode_param params) in
  getToken hkdf jweDecrypt SessionStore_value penv t params
  = (token ← bearerToken (SessionStore_value name secure (cookies r) (headers r))
               (authorization (headers r));
     Normal (if truthy token then outcome _decode (raw params) sec token else Null)).
Proof.
  intros Hr Hs Hsec secure name _decode. unfold getToken. rewrite Hr.
  fold (effective_secret penv params). rewrite Hs.
  destruct sec as [|c sec]; [discriminate|].
  fold (effective_secureCookie penv params). fold secure.
  fold (default_cookieName secure). fold name. fold _decode.
  destruct (bearerToken _ _) as [token|e]; [|reflexivity]. simpl.
  unfold outcome. destruct (truthy token); simpl; [|reflexivity].
  destruct (default false (raw params)); [reflexivity|].
  destruct (_decode _) as [[payload|]|]; reflexivity.
Qed.

(** getToken returns null when decoding the found token throws. *)
Lemma getToken_decode_throws penv t params r sec token e :
  req params = Some r →
  effective_secret penv params = Some sec →
  truthy sec = true →
  let secure := effective_secureCookie penv params in
  let name := default (default_cookieName secure) (cookieName params) in
  bearerToken (SessionStore_value name secure (cookies r) (headers r))
    (authorization (headers r)) = Normal token →
  default false (raw params) = false →
  default (decode hkdf jweDecrypt t) (decode_param params)
    {| dec_token := Some token; dec_secret := sec |} = Throw e →
  getToken hkdf jweDecrypt SessionStore_value penv t params = Normal Null.
Proof.
  intros Hr Hs Hsec secure name Htok Hraw Hdec.
  rewrite (getToken_found penv t params r sec Hr Hs Hsec).
  fold secure name. rewrite Htok. simpl.
  unfold outcome. rewrite Hraw, Hdec. now destruct (truthy token).
Qed.

(** getToken fails in three cases only: no request, no secret, or a Bearer
    token that decodeURIComponent rejects. *)
Lemma getToken_throws penv t params e :
  getToken hkdf jweDecrypt SessionStore_value penv t params = Throw e →
  req params = None
  ∨ otruthy (effective_secret penv params) = false
  ∨ ∃ r h, req params = Some r
           ∧ authorization (headers r) = Some h
           ∧ split " " h !! 0%nat = Some "Bearer"
           ∧ decodeURIComponent (split " " h !! 1%nat) = Throw e.
Proof.
  intros H.
  destruct (req params) as [r|] eqn:Hr; [|now left]. right.
  destruct (effective_secret penv params) as [sec|] eqn:Hs; [|now left].
  destruct (truthy sec) eqn:Hsec; [|now left]. right.
  rewrite (getToken_found penv t params r sec Hr Hs Hsec) in H.
  unfold bearerToken in H.
  destruct (authorization (headers r)) as [h|] eqn:Hh; [|cbn in H; discriminate H].
  exists r, h. split; [reflexivity|]. split; [exact Hh|].
  destruct (negb (truthy _)); cbn [andb] in H; [|cbn in H; discriminate H].
  destruct (bool_decide (split " " h !! 0%nat = Some "Bearer")) eqn:Hb;
    [|cbn in H; discriminate H].
  apply bool_decide_eq_true_1 in Hb. split; [exact Hb|].
  destruct (decodeURIComponent _) as [token|e']; cbn in H; [discriminate H|].
  congruence.
Qed.

(** C3, amended: with a request and a secret, the token is the value of
    the session cookie store for the cookie named cookieName when that
    parameter is given, and otherwise "__Secure-next-auth.session-token"
    when secureCookie and "next-auth.session-token" when not. Only when
    the store has no token is it the second word of an Authorization
    header whose first word is "Bearer", URL-decoded. With no token from
    either the result is null; with a token it is the token when raw is
    set, and otherwise the decoded payload, or null when decoding throws
    or returns null. *)
Theorem C3_getToken penv t params r sec :
  req params = Some r →
  effective_secret penv params = Some sec →
  truthy sec = true →
  let secure := effective_secureCookie penv params in
  let name := default (default_cookieName secure) (cookieName params) in
  let cookieToken := SessionStore_value name secure (cookies r) (headers r) in
  let _decode := default (decode hkdf jweDecrypt t) (decode_param params) in
  let result := getToken hkdf jweDecrypt SessionStore_value penv t params in
  (truthy cookieToken = true →
     result = Normal (outcome _decode (raw params) sec cookieToken))
  ∧ (truthy cookieToken = false →
     ∀ h urlEncodedToken rest token,
       authorization (headers r) = Some h →
       split " " h = "Bearer" :: urlEncodedToken :: rest →
       decodeURIComponent (Some urlEncodedToken) = Normal token →
       result = Normal (if truthy token
                        then outcome _decode (raw params) sec token else Null))
  ∧ (truthy cookieToken = false →
     (∀ h, authorization (headers r) = Some h → split " " h !! 0%nat ≠ Some "Bearer") →
     result = Normal Null).
Proof.
  intros Hr Hs Hsec secure name cookieToken _decode result.
  unfold result. rewrite (getToken_found penv t params r sec Hr Hs Hsec).
  fold secure name cookieToken _decode.
  split; [|split].
  - intros Hc. unfold bearerToken. rewrite Hc. simpl.
    destruct (authorization (headers r)); simpl; now rewrite Hc.
  - intros Hc h enc rest token Hh Hsplit Hdec.
    unfold bearerToken. rewrite Hh, Hc, Hsplit.
    rewrite bool_decide_eq_true_2 by reflexivity.
    simpl. rewrite Hdec. reflexivity.
  - intros Hc Hnot. unfold bearerToken.
    destruct (authorization (headers r)) as [h|] eqn:Hh.
    + rewrite bool_decide_eq_false_2 by (apply Hnot; reflexivity).
      rewrite andb_false_r. simpl. now rewrite Hc.
    + simpl. now rewrite Hc.
Qed.

(** C8, at a request with no session cookie and the header
    "Authorization: Bearer %": getToken has its request and its secret,
    and still fails, with a URIError from decodeURIComponent. *)
Theorem C8_getToken_throws_URIError penv t :
  let r := {| cookies := Some ∅;
              headers := HeadersRecord {[ "authorization" := "Bearer %" ]} |} in
  let params := {| req := Some r; secureCookie := None; cookieName := None;
                   raw := None; decode_param := None; secret := Some "secret" |} in
  (∀ name secure, SessionStore_value name secure (cookies r) (headers r) = EmptyString) →
  getToken hkdf jweDecrypt SessionStore_value penv t params = Throw URIError.
Proof.
  intros r params Hstore.
  rewrite (getToken_found penv t params r "secret" eq_refl eq_refl eq_refl).
  rewrite Hstore. reflexivity.
Qed.

End WithLibraries.

Lemma C3_getToken_witness :
  let r := {| cookies := Some {[ "next-auth.session-token" := "abc" ]};
              headers := HeadersRecord ∅ |} in
  let params := {| req := Some r; secureCookie := None; cookieName := None;
                   raw := Some true; decode_param := None; secret := Some "secret" |} in
  getToken StandIns.hkdf StandIns.reject_all StandIns.SessionStore_value StandIns.empty_env 0 params
  = Normal (RawToken "abc").
Proof.
  intros r params.
  destruct (C3_getToken StandIns.hkdf StandIns.reject_all StandIns.SessionStore_value
              StandIns.empty_env 0 params r "secret" eq_refl eq_refl eq_refl) as (H & _ & _).
  exact (H eq_refl).
Defined.

(** C3 as stated fails: with cookieName "sid" the token is read from the
    cookie "sid", not from "next-auth.session-token"; the request of the
    example has no cookie of that name and no Authorization header, so the
    statement gives null where getToken returns the token. *)
Lemma C3_counterexample :
  let r := {| cookies := Some {[ "sid" := "abc" ]}; headers := HeadersRecord ∅ |} in
  let params := {| req := Some r; secureCookie := Some false; cookieName := Some "sid";
                   raw := Some true; decode_param := None; secret := Some "secret" |} in
  getToken StandIns.hkdf StandIns.reject_all StandIns.SessionStore_value StandIns.empty_env 0 params
  = Normal (RawToken "abc")
  ∧ getToken_as_stated StandIns.SessionStore_value
      (decode StandIns.hkdf StandIns.reject_all 0) false (Some true) r "secret"
    = Normal Null.
Proof. split; reflexivity. Qed.

Lemma C8_getToken_throws_URIError_witness :
  let r := {| cookies := Some ∅;
              headers := HeadersRecord {[ "authorization" := "Bearer %" ]} |} in
  let params := {| req := Some r; secureCookie := None; cookieName := None;
                   raw := None; decode_param := None; secret := Some "secret" |} in
  getToken StandIns.hkdf StandIns.reject_all StandIns.SessionStore_value StandIns.empty_env 0 params
  = Throw URIError.
Proof.
  intros r params.
  apply (C8_getToken_throws_URIError StandIns.hkdf StandIns.reject_all
           StandIns.SessionStore_value StandIns.empty_env 0).
  intros name secure. reflexivity.
Defined.

End GetToken.

(** ** generate-providers.js *)

Module GenerateProvidersFacts.

Import GenerateProviders.

Lemma indexOf_dot (f : string) :
  occurs "." f = true →
  indexOf f "." = Z.of_nat (String.length (text_before_first_dot f)).
Proof.
  induction f as [|a f IH]; simpl; [discriminate|].
  destruct (Ascii.eqb a "."); simpl; [reflexivity|].
  intros H. rewrite (IH H).
  destruct (Z.ltb_spec (Z.of_nat (String.length (text_before_first_dot f))) 0); lia.
Qed.

Lemma indexOf_absent (f : string) (c : ascii) : occurs c f = false → indexOf f c = -1.
Proof.
  induction f as [|a f IH]; simpl; [reflexivity|].
  destruct (Ascii.eqb a c); simpl; [discriminate|].
  intros H. now rewrite (IH H).
Qed.

Lemma substring_before_dot (f : string) :
  String.substring 0 (String.length (text_before_first_dot f)) f = text_before_first_dot f.
Proof.
  induction f as [|a f IH]; simpl; [reflexivity|].
  destruct (Ascii.eqb a "."); simpl; [reflexivity | now rewrite IH].
Qed.

Lemma before_dot_length (f : string) :
  (String.length (text_before_first_dot f) <= String.length f)%nat.
Proof.
  induction f as [|a f IH]; simpl; [lia|].
  destruct (Ascii.eqb a "."); simpl; lia.
Qed.

(** On a name with a dot, the code's substring is the text before the
    first dot. *)
Lemma stripped_is_text_before_first_dot (f : string) :
  occurs "." f = true →
  substring f 0 (indexOf f ".") = text_before_first_dot f.
Proof.
  intros H. unfold substring. rewrite (indexOf_dot f H).
  pose proof (before_dot_length f) as Hle.
  set (n := String.length (text_before_first_dot f)) in *.
  replace (Z.min (Z.max 0 0) (Z.of_nat (String.length f))) with 0 by lia.
  replace (Z.min (Z.max (Z.of_nat n) 0) (Z.of_nat (String.length f)))
    with (Z.of_nat n) by lia.
  replace (Z.min 0 (Z.of_nat n)) with 0 by lia.
  replace (Z.max 0 (Z.of_nat n) - 0) with (Z.of_nat n) by lia.
  rewrite Nat2Z.id. simpl (Z.to_nat 0). apply substring_before_dot.
Qed.

(** On a name without a dot the code's substring is empty. *)
Lemma stripped_without_dot (f : string) :
  occurs "." f = false → substring f 0 (indexOf f ".") = EmptyString.
Proof.
  intros H. unfold substring. rewrite (indexOf_absent f "." H).
  replace (Z.min (Z.max 0 0) (Z.of_nat (String.length f))) with 0 by lia.
  replace (Z.min (Z.max (-1) 0) (Z.of_nat (String.length f))) with 0 by lia.
  simpl. now destruct f.
Qed.

Lemma before_dot_no_dquote (f : string) :
  occurs dquote f = false → occurs dquote (text_before_first_dot f) = false.
Proof.
  induction f as [|a f IH]; simpl; [reflexivity|].
  intros H. apply orb_false_elim in H as [Ha Hf].
  destruct (Ascii.eqb a "."); simpl; [reflexivity|].
  now rewrite Ha, (IH Hf).
Qed.

Lemma replace_dquotes_closing (name : string) :
  occurs dquote name = false →
  replace_dquotes (name +:+ String dquote EmptyString) = name.
Proof.
  induction name as [|a name IH]; simpl; [reflexivity|].
  intros H. apply orb_false_elim in H as [Ha Hn].
  now rewrite Ha, (IH Hn).
Qed.

Lemma replace_dquotes_quoted (name : string) :
  occurs dquote name = false →
  replace_dquotes (String dquote name +:+ String dquote EmptyString) = name.
Proof. intros H. simpl. now apply replace_dquotes_closing. Qed.

(** C6, amended: for file names that each contain a dot and no double
    quote, the members of the generated union are, in order, the quoted
    texts before the first dot of the file names, without those among
    "oauth-types", "oauth", "index", "email" and "credentials". *)
Theorem C6_providers_are_base_names (files : list string) :
  (∀ f, In f files → occurs "." f = true ∧ occurs dquote f = false) →
  providers files = spec_union files
  ∧ result files
    = nl +:+ "// THIS FILE IS AUTOGENERATED. DO NOT EDIT." +:+ nl
      +:+ "export type OAuthProviderType = " +:+ nl
      +:+ "  | " +:+ join (nl +:+ "  | ") (spec_union files).
Proof.
  intros Hfiles.
  assert (Hp : providers files = spec_union files).
  { unfold providers, spec_union.
    induction files as [|f files IH]; [reflexivity|].
    destruct (Hfiles f (or_introl eq_refl)) as [Hdot Hq].
    assert (Hf : quotedProviderName f
                 = String dquote (text_before_first_dot f) +:+ String dquote EmptyString).
    { unfold quotedProviderName. now rewrite (stripped_is_text_before_first_dot f Hdot). }
    cbn [map List.filter]. rewrite Hf.
    rewrite (replace_dquotes_quoted _ (before_dot_no_dquote f Hq)).
    rewrite IH by (intros g Hg; apply Hfiles; now right).
    destruct (negb (includes nonOAuthFile (text_before_first_dot f))); reflexivity. }
  split; [exact Hp|]. unfold result. now rewrite Hp.
Qed.

Lemma C6_providers_are_base_names_witness :
  providers ["github.ts"; "oauth.ts"; "index.ts"; "email.ts"; "google.ts";
             "credentials.ts"; "oauth-types.ts"; "azure-ad.d.ts"]
  = [String dquote "github" +:+ String dquote EmptyString;
     String dquote "google" +:+ String dquote EmptyString;
     String dquote "azure-ad" +:+ String dquote EmptyString].
Proof.
  destruct (C6_providers_are_base_names
              ["github.ts"; "oauth.ts"; "index.ts"; "email.ts"; "google.ts";
               "credentials.ts"; "oauth-types.ts"; "azure-ad.d.ts"]) as [H _].
  - intros f Hf. simpl in Hf.
    repeat (destruct Hf as [<-|Hf]; [split; reflexivity|]). destruct Hf.
  - rewrite H. reflexivity.
Defined.

(** C6 as stated fails for a file name without a dot and for one with a
    double quote: LICENSE gives the empty name where its text before the
    first dot is LICENSE, and the file named oa, double quote, uth.ts is
    left out, as if it were oauth.ts, where its base name is none of the
    five. *)
Lemma C6_counterexample :
  let quoted name := String dquote name +:+ String dquote EmptyString in
  let odd := "oa" +:+ String dquote "uth" in
  (providers ["LICENSE"] = [quoted ""]
   ∧ spec_union ["LICENSE"] = [quoted "LICENSE"]
   ∧ providers ["LICENSE"] ≠ spec_union ["LICENSE"])
  ∧ (providers [odd +:+ ".ts"] = []
     ∧ spec_union [odd +:+ ".ts"] = [quoted odd]
     ∧ providers [odd +:+ ".ts"] ≠ spec_union [odd +:+ ".ts"]).
Proof.
  intros quoted odd. repeat split; try reflexivity; discriminate.
Qed.

End GenerateProvidersFacts.

(** ** The SvelteKit client helpers *)

Module SvelteKitClientFacts.

Import JSString SvelteKitClient.

Lemma get_set_same k v o : get k (set k v o) = v.
Proof.
  unfold get. induction o as [|[k' v'] o IH]; simpl.
  - now rewrite String.eqb_refl.
  - destruct (String.eqb k' k) eqn:E; simpl.
    + now rewrite String.eqb_refl.
    + now rewrite E.
Qed.

Lemma filter_absent k (o : list (string * option json)) :
  k ∉ keys o → List.filter (λ kv, String.eqb kv.1 k) o = [].
Proof.
  induction o as [|[k' v'] o IH]; simpl; [reflexivity|].
  intros H. apply not_elem_of_cons in H as [Hne H].
  destruct (String.eqb_spec k' k) as [->|_]; [contradiction|]. now apply IH.
Qed.

Lemma filter_set_same k v o :
  NoDup (keys o) → List.filter (λ kv, String.eqb kv.1 k) (set k v o) = [(k, v)].
Proof.
  induction o as [|[k' v'] o IH]; simpl; intros Hnd.
  - now rewrite String.eqb_refl.
  - apply NoDup_cons in Hnd as [Hnotin Hnd].
    destruct (String.eqb_spec k' k) as [->|Hne]; simpl.
    + rewrite String.eqb_refl. now rewrite (filter_absent k o Hnotin).
    + destruct (String.eqb_spec k' k); [contradiction|]. now apply IH.
Qed.

Lemma filter_set_other k k' v o :
  k' ≠ k →
  List.filter (λ kv, String.eqb kv.1 k) (set k' v o)
  = List.filter (λ kv, String.eqb kv.1 k) o.
Proof.
  intros Hne. induction o as [|[k0 v0] o IH]; simpl.
  - destruct (String.eqb_spec k' k); [contradiction | reflexivity].
  - destruct (String.eqb_spec k0 k') as [->|Hne0]; simpl.
    + destruct (String.eqb_spec k' k); [contradiction | reflexivity].
    + now rewrite IH.
Qed.

Lemma keys_set k v o :
  keys (set k v o) = if bool_decide (k ∈ keys o) then keys o else keys o ++ [k].
Proof.
  induction o as [|[k' v'] o IH]; simpl; [reflexivity|].
  destruct (String.eqb_spec k' k) as [->|Hne]; simpl.
  - rewrite bool_decide_eq_true_2 by apply list_elem_of_here. reflexivity.
  - rewrite IH. destruct (bool_decide (k ∈ keys o)) eqn:E.
    + apply bool_decide_eq_true_1 in E.
      rewrite bool_decide_eq_true_2 by now apply list_elem_of_further. reflexivity.
    + apply bool_decide_eq_false_1 in E.
      rewrite bool_decide_eq_false_2; [reflexivity|].
      intros H. apply elem_of_cons in H as [?|?]; [congruence | contradiction].
Qed.

Lemma NoDup_set k v o : NoDup (keys o) → NoDup (keys (set k v o)).
Proof.
  intros Hnd. rewrite keys_set.
  destruct (bool_decide (k ∈ keys o)) eqn:E; [exact Hnd|].
  apply bool_decide_eq_false_1 in E.
  apply NoDup_app. repeat split; [exact Hnd | | apply NoDup_singleton].
  intros x Hx Hx'. apply list_elem_of_singleton in Hx' as ->. contradiction.
Qed.

Lemma NoDup_spread source target :
  NoDup (keys target) → NoDup (keys (spread source target)).
Proof.
  unfold spread. generalize (default [] source) as l. intros l; revert target.
  induction l as [|kv l IH]; simpl; intros target Hnd; [exact Hnd|].
  apply IH. now apply NoDup_set.
Qed.

Lemma filter_record_body k (o : list (string * option json)) :
  List.filter (λ nv : string * string, String.eqb nv.1 k)
    (map (λ kv, (kv.1, ToString_opt kv.2)) o)
  = map (λ kv, (kv.1, ToString_opt kv.2)) (List.filter (λ kv, String.eqb kv.1 k) o).
Proof.
  induction o as [|[k' v'] o IH]; simpl; [reflexivity|].
  destruct (String.eqb k' k); simpl; now rewrite IH.
Qed.

(** A form body built from an object whose csrfToken was set last but one
    carries that token as its only csrfToken field. *)
Lemma body_csrfToken parse (token : option json) (callbackUrl : json) o :
  NoDup (keys o) →
  List.filter (λ nv : string * string, String.eqb nv.1 "csrfToken")
    (new_URLSearchParams parse
       (InitRecord (set "callbackUrl" (Some callbackUrl) (set "csrfToken" token o))))
  = [("csrfToken", ToString_opt token)].
Proof.
  intros Hnd. simpl. rewrite filter_record_body.
  rewrite filter_set_other by done. now rewrite filter_set_same.
Qed.

Lemma run_fetch_free {A} network (c : Client A) (history : list Event) :
  fetch_free c →
  ∃ rest, (run network history c).1 = history ++ rest
          ∧ Forall (λ e, is_fetch e = false) rest.
Proof.
  revert history. induction c as [r|input init k IH|url k IH|k IH]; simpl; intros history Hc.
  - exists []. split; [now rewrite app_nil_r | constructor].
  - destruct Hc.
  - destruct (IH (history ++ [HrefSet url]) Hc) as (rest & -> & Hrest).
    exists (HrefSet url :: rest). split; [now rewrite <- app_assoc|].
    now constructor.
  - destruct (IH (history ++ [Reloaded]) Hc) as (rest & -> & Hrest).
    exists (Reloaded :: rest). split; [now rewrite <- app_assoc|].
    now constructor.
Qed.

(** Case analysis on a program that only reads answers and moves the
    page. *)
Ltac fetch_free_cases :=
  repeat (simpl; match goal with
                 | |- fetch_free (match ?x with _ => _ end) => destruct x
                 | |- fetch_free (if ?x then _ else _) => destruct x
                 | |- fetch_free (mbind _ (if ?x then _ else _)) => destruct x
                 end); simpl; try exact I.

Lemma append_assoc (a b c : string) : (a +:+ b) +:+ c = a +:+ (b +:+ c).
Proof.
  induction a as [|x a IH]; [reflexivity|].
  change (String x ((a +:+ b) +:+ c) = String x (a +:+ (b +:+ c))).
  now f_equal.
Qed.

Lemma run_signIn parse network base href providerId options authorizationParams :
  let basePath := default "" base in
  let isCredentials := bool_decide (providerId = Some "credentials") in
  let url :=
    (basePath +:+ "/auth/" +:+ (if isCredentials then "callback" else "signin")
     +:+ "/" +:+ default "undefined" providerId)
    +:+ "?" +:+ URLSearchParams_toString (new_URLSearchParams parse authorizationParams) in
  csrf_then_post network basePath url
    (run network [] (signIn parse base href providerId options authorizationParams)).1.
Proof.
  intros basePath isCredentials url.
  unfold csrf_then_post, signIn, fetched_csrfToken. fold basePath.
  set (csrfUrl := basePath +:+ "/auth/csrf").
  simpl.
  destruct (network [] csrfUrl None) as [resp|e]; simpl; [|reflexivity].
  destruct (json_body resp) as [j|e]; simpl; [|reflexivity].
  destruct (get_property j "csrfToken") as [token|e]; simpl; [|reflexivity].
  fold isCredentials. fold url.
  match goal with
  | |- context [Fetched url (Some ?i)] => set (init := i)
  end.
  exists init.
  match goal with
  | |- context [run network ?h ?c] =>
      destruct (run_fetch_free network c h) as (rest & -> & Hrest)
  end.
  { fetch_free_cases. }
  exists rest. split; [reflexivity|]. split; [exact Hrest|].
  split; [reflexivity|]. exists init. split; [reflexivity|].
  split; [now left|].
  apply (body_csrfToken parse). apply NoDup_spread. constructor.
Qed.

Lemma run_signOut parse network base href options :
  let basePath := default "" base in
  csrf_then_post network basePath (basePath +:+ "/auth/signout")
    (run network [] (signOut parse base href options)).1.
Proof.
  intros basePath.
  unfold csrf_then_post, signOut, fetched_csrfToken. fold basePath.
  set (csrfUrl := basePath +:+ "/auth/csrf").
  simpl.
  destruct (network [] csrfUrl None) as [resp|e]; simpl; [|reflexivity].
  destruct (json_body resp) as [j|e]; simpl; [|reflexivity].
  destruct (get_property j "csrfToken") as [token|e]; simpl; [|reflexivity].
  match goal with
  | |- context [Fetched (basePath +:+ "/auth/signout") (Some ?i)] => set (init := i)
  end.
  exists init.
  match goal with
  | |- context [run network ?h ?c] =>
      destruct (run_fetch_free network c h) as (rest & -> & Hrest)
  end.
  { fetch_free_cases. }
  exists rest. split; [reflexivity|]. split; [exact Hrest|].
  split; [reflexivity|]. exists init. split; [reflexivity|].
  split; [now left | reflexivity].
Qed.

(** A run of signOut: the token is fetched, posted, and the page moves to
    the address in the answer. *)
Example signOut_run :
  run (StandIns.network (JObject [("csrfToken", JString "t0k"); ("url", JString "/bye")])) []
    (signOut (λ _, []) None "https://example.org/me" None)
  = ([Fetched "/auth/csrf" None;
      Fetched "/auth/signout"
        (Some {| method := "post"; init_headers := form_headers;
                 body := [("csrfToken", "t0k");
                          ("callbackUrl", "https://example.org/me")] |});
      HrefSet "/bye"],
     Normal ()).
Proof. reflexivity. Qed.

(** C5: signIn and signOut first request {basePath}/auth/csrf; the only
    other request either of them makes is a POST with a urlencoded form
    body whose one csrfToken field is the csrfToken of the answer to that
    first request. *)
Theorem C5_csrfToken_fetched_then_posted parse network base href
    providerId options authorizationParams signOutOptions :
  let basePath := default "" base in
  (∃ url, csrf_then_post network basePath url
            (run network [] (signIn parse base href providerId options
                               authorizationParams)).1)
  ∧ csrf_then_post network basePath (basePath +:+ "/auth/signout")
      (run network [] (signOut parse base href signOutOptions)).1.
Proof.
  intros basePath. split.
  - eexists. apply run_signIn.
  - apply run_signOut.
Qed.

(** C7: once the CSRF token is read, signIn posts to
    {basePath}/auth/callback/{providerId} when providerId is "credentials"
    and to {basePath}/auth/signin/{providerId} otherwise, followed by "?"
    and the serialized authorizationParams; it posts nowhere else. *)
Theorem C7_signIn_address parse network base href (providerId : string)
    options authorizationParams token :
  let basePath := default "" base in
  let query := URLSearchParams_toString (new_URLSearchParams parse authorizationParams) in
  let trace :=
    (run network [] (signIn parse base href (Some providerId) options
                       authorizationParams)).1 in
  fetched_csrfToken network (basePath +:+ "/auth/csrf") = Normal token →
  (∃ init, trace !! 1%nat
           = Some (Fetched (signIn_address basePath providerId query) (Some init))
           ∧ request_method (Some init) = "POST")
  ∧ ∀ input init, In (Fetched input (Some init)) trace →
      input = signIn_address basePath providerId query.
Proof.
  intros basePath query trace Htoken.
  pose proof (run_signIn parse network base href (Some providerId) options
                authorizationParams) as H.
  cbv zeta in H. fold basePath query trace in H.
  unfold csrf_then_post in H. rewrite Htoken in H.
  destruct H as (init & rest & Htrace & Hrest & Hpost & _).
  change (default "undefined" (Some providerId)) with providerId in Htrace.
  assert (Haddr :
    (basePath +:+ "/auth/"
     +:+ (if bool_decide (Some providerId = Some "credentials") then "callback" else "signin")
     +:+ "/" +:+ providerId) +:+ "?" +:+ query
    = signIn_address basePath providerId query).
  { unfold signIn_address.
    destruct (String.eqb_spec providerId "credentials") as [->|Hne].
    - rewrite bool_decide_eq_true_2 by reflexivity.
      now rewrite !append_assoc.
    - rewrite bool_decide_eq_false_2 by congruence.
      now rewrite !append_assoc. }
  rewrite Haddr in Htrace. clearbody trace. subst trace. split.
  - exists init. split; [reflexivity | exact Hpost].
  - intros input i [Hin|[Hin|Hin]].
    + discriminate Hin.
    + now injection Hin as <- _.
    + rewrite Forall_forall in Hrest. apply list_elem_of_In in Hin.
      specialize (Hrest _ Hin). discriminate Hrest.
Qed.

Lemma C7_signIn_address_witness :
  let trace :=
    (run (StandIns.network (JObject [("csrfToken", JString "t0k")])) []
       (signIn (λ _, []) (Some "/app") "https://example.org/"
          (Some "credentials") None (InitSequence [("prompt", "login now")]))).1 in
  ∃ init, trace !! 1%nat
          = Some (Fetched "/app/auth/callback/credentials?prompt=login+now" (Some init))
          ∧ request_method (Some init) = "POST".
Proof.
  intros trace.
  exact (proj1 (C7_signIn_address (λ _, [])
                  (StandIns.network (JObject [("csrfToken", JString "t0k")]))
                  (Some "/app") "https://example.org/" "credentials" None
                  (InitSequence [("prompt", "login now")]) (Some (JString "t0k")) eq_refl)).
Defined.

End SvelteKitClientFacts.

(** ** The MikroORM adapter *)

Module MikroOrmAdapterFacts.

Import MikroOrmAdapter.

Lemma find_row_Some where_ l i :
  find_row where_ l = Some i →
  ∃ r, l !! i = Some r ∧ satisfies where_ r = true.
Proof.
  revert i. induction l as [|r l IH]; simpl; intros i H; [discriminate|].
  destruct (satisfies where_ r) eqn:E.
  - injection H as <-. now exists r.
  - destruct (find_row where_ l) as [j|]; [|discriminate].
    injection H as <-. destruct (IH j eq_refl) as (r' & Hr' & Hs). now exists r'.
Qed.

Lemma find_row_None where_ l :
  find_row where_ l = None ↔ ∀ j r, l !! j = Some r → satisfies where_ r = false.
Proof.
  induction l as [|r l IH]; simpl.
  - split; [intros _ j r H; discriminate | reflexivity].
  - destruct (satisfies where_ r) eqn:E.
    + split; [discriminate|]. intros H. specialize (H O r eq_refl). congruence.
    + split.
      * intros H [|j'] r' Hj'.
        -- injection Hj' as <-. exact E.
        -- apply (proj1 IH) with j'; [|exact Hj'].
           destruct (find_row where_ l); [discriminate | reflexivity].
      * intros H.
        assert (Hl : find_row where_ l = None).
        { apply IH. intros j' r' Hj'. apply (H (S j') r'). exact Hj'. }
        now rewrite Hl.
Qed.

Lemma rows_set_rows m l db : rows m (set_rows m l db) = l.
Proof. now destruct m. Qed.

Lemma set_rows_same m db : set_rows m (rows m db) db = db.
Proof. now destruct m, db. Qed.

Lemma findOne_found m where_ db i :
  find_row where_ (rows m db) = Some i →
  ∃ r, rows m db !! i = Some r ∧ satisfies where_ r = true
       ∧ findOne m where_ db = (Normal (Some {| model := m; row := i; props := r |}), db).
Proof.
  intros H. destruct (find_row_Some _ _ _ H) as (r & Hr & Hs).
  exists r. split; [exact Hr|]. split; [exact Hs|].
  unfold findOne. rewrite H. simpl. now rewrite Hr.
Qed.

Lemma findOne_none m where_ db :
  find_row where_ (rows m db) = None → findOne m where_ db = (Normal None, db).
Proof. intros H. unfold findOne. now rewrite H. Qed.

(** C4, as the code runs: when no stored session has the given
    sessionToken, updateSession fails with the TypeError of
    wrap(session).assign on null, before it reaches the check that throws
    "Session not found"; the database is unchanged. *)
Theorem C4_updateSession_without_match data db :
  find_row {[ "sessionToken" := VString (sessionToken data) ]} (Session db) = None →
  updateSession data db
  = (Throw (TypeError "Cannot read properties of null (reading 'assign')"), db).
Proof.
  intros H. unfold updateSession.
  unfold mbind, em_bind.
  now rewrite (findOne_none SessionModel _ db H).
Qed.

Lemma C4_updateSession_without_match_witness :
  let db := {| User := []; Account := []; VerificationToken := [];
               Session := [ {[ "sessionToken" := VString "s1";
                               "userId" := VString "u1" ]} ] |} in
  updateSession {| sessionToken := "s2"; userId := None; expires := Some 1700000000000 |} db
  = (Throw (TypeError "Cannot read properties of null (reading 'assign')"), db).
Proof.
  intros db.
  apply (C4_updateSession_without_match
           {| sessionToken := "s2"; userId := None; expires := Some 1700000000000 |} db).
  vm_compute. reflexivity.
Defined.

(** The sibling updateUser checks before it assigns: a missing user is
    reported as "User not found". *)
Lemma updateUser_without_match id data db :
  find_row {[ "id" := id ]} (User db) = None →
  updateUser id data db = (Throw (Error "User not found"), db).
Proof.
  intros H. unfold updateUser. unfold mbind, em_bind.
  now rewrite (findOne_none UserModel _ db H).
Qed.

(** With a matching session updateSession writes the assigned row. *)
Lemma updateSession_with_match data db i :
  find_row {[ "sessionToken" := VString (sessionToken data) ]} (Session db) = Some i →
  ∃ r, Session db !! i = Some r
       ∧ updateSession data db
         = (Normal (session_object data ∪ r),
            set_rows SessionModel (<[i := session_object data ∪ r]> (Session db)) db).
Proof.
  intros H. destruct (findOne_found SessionModel _ db i H) as (r & Hr & _ & Hf).
  exists r. split; [exact Hr|].
  unfold updateSession. unfold mbind, em_bind. now rewrite Hf.
Qed.

(** C10: useVerificationToken returns null and leaves the database as it
    is when no stored token matches; when one matches it is returned and
    its row is removed, and, the stored tokens that match being at most
    one, a second call with the same parameters returns null. *)
Theorem C10_useVerificationToken_single_use params db :
  let table := VerificationToken db in
  (∀ i j a b, table !! i = Some a → table !! j = Some b →
              satisfies params a = true → satisfies params b = true → i = j) →
  match find_row params table with
  | None => useVerificationToken params db = (Normal None, db)
  | Some i =>
      ∃ token,
        table !! i = Some token
        ∧ satisfies params token = true
        ∧ let db' := set_rows VerificationTokenModel (delete i table) db in
          useVerificationToken params db = (Normal (Some token), db')
          ∧ useVerificationToken params db' = (Normal None, db')
  end.
Proof.
  intros table Hunique.
  destruct (find_row params table) as [i|] eqn:Hfind.
  - destruct (findOne_found VerificationTokenModel params db i Hfind)
      as (token & Htok & Hsat & Hf).
    exists token. split; [exact Htok|]. split; [exact Hsat|].
    intros db'. split.
    + unfold useVerificationToken. unfold mbind, em_bind. now rewrite Hf.
    + unfold useVerificationToken. unfold mbind, em_bind.
      rewrite findOne_none; [reflexivity|].
      unfold db'. rewrite rows_set_rows. apply find_row_None.
      intros j r Hj. destruct (satisfies params r) eqn:E; [|reflexivity].
      exfalso. destruct (decide (j < i)%nat) as [Hlt|Hge].
      * rewrite list_lookup_delete_lt in Hj by exact Hlt.
        specialize (Hunique j i r token Hj Htok E Hsat). lia.
      * rewrite list_lookup_delete_ge in Hj by lia.
        specialize (Hunique (S j) i r token Hj Htok E Hsat). lia.
  - unfold useVerificationToken. unfold mbind, em_bind.
    now rewrite (findOne_none VerificationTokenModel params db Hfind).
Qed.

Lemma C10_useVerificationToken_single_use_witness :
  let t1 : gmap string value :=
    {[ "identifier" := VString "ada@example.org"; "token" := VString "abc";
       "expires" := VDate 1700000000000 ]} in
  let t2 : gmap string value :=
    {[ "identifier" := VString "bob@example.org"; "token" := VString "xyz";
       "expires" := VDate 1700000000000 ]} in
  let db := {| User := []; Account := []; Session := []; VerificationToken := [t2; t1] |} in
  let db' := {| User := []; Account := []; Session := []; VerificationToken := [t2] |} in
  useVerificationToken (token_params "ada@example.org" "abc") db = (Normal (Some t1), db')
  ∧ useVerificationToken (token_params "ada@example.org" "abc") db' = (Normal None, db').
Proof.
  intros t1 t2 db db'.
  pose proof (C10_useVerificationToken_single_use
                (token_params "ada@example.org" "abc") db) as H.
  cbv zeta in H.
  replace (find_row (token_params "ada@example.org" "abc") (VerificationToken db))
    with (Some 1%nat) in H by (vm_compute; reflexivity).
  destruct H as (token & Htok & _ & H1 & H2).
  - assert (Hrow : ∀ i a, VerificationToken db !! i = Some a →
                     satisfies (token_params "ada@example.org" "abc") a = true →
                     i = 1%nat).
    { intros [|[|i]] a Ha Hs; [|reflexivity|].
      - injection Ha as <-. vm_compute in Hs. discriminate Hs.
      - cbn in Ha. discriminate Ha. }
    intros i j a b Ha Hb Hsa Hsb.
    rewrite (Hrow i a Ha Hsa), (Hrow j b Hb Hsb). reflexivity.
  - injection Htok as <-. split; [exact H1 | exact H2].
Defined.

End MikroOrmAdapterFacts.

(** ** jwt.ts: further properties of encode, decode and getToken *)

Module JwtMore.

Import JSString Jwt JwtFacts JwtEncodeDecode GetToken Vocabulary.

(** What decode has checked when it returns a payload. *)
Lemma decode_checked hkdf jweDecrypt t params payload :
  decode hkdf jweDecrypt t params = Normal (Some payload) →
  unexpired payload t ∧ not_before_ok payload t.
Proof.
  unfold decode, jwtDecrypt.
  destruct (dec_token params) as [token|]; [|discriminate].
  destruct (negb (truthy token)); [discriminate|].
  destruct (jweDecrypt token _) as [[h claims]|e]; [|discriminate].
  cbn. unfold check_iat, check_nbf, check_exp, unexpired, not_before_ok.
  destruct (claims !! "iat") as [[| |i| | |]|]; cbn; try discriminate.
  all: destruct (claims !! "nbf") as [[| |n| | |]|] eqn:Hnbf; cbn; try discriminate.
  all: try (destruct (Z.gtb_spec n (epoch t + 15)); cbn; try discriminate).
  all: destruct (claims !! "exp") as [[| |m| | |]|] eqn:Hexp; cbn; try discriminate.
  all: try (destruct (Z.leb_spec m (epoch t - 15)); cbn; try discriminate).
  all: intros Hres; injection Hres as <-; rewrite Hexp, Hnbf; split; try exact I; lia.
Qed.

(** X1: Neither decode nor getToken with its own decode returns a payload whose
    "exp" claim lies 15 seconds or more in the past, or is not a number, or
    whose "nbf" claim lies more than 15 seconds ahead: whatever the token
    and whatever the decryption gives. *)
Theorem no_expired_payload hkdf jweDecrypt SessionStore_value penv t
    (dparams : JWTDecodeParams) (gparams : GetTokenParams) (payload : gmap string json) :
  decode hkdf jweDecrypt t dparams = Normal (Some payload)
  ∨ (decode_param gparams = None
     ∧ getToken hkdf jweDecrypt SessionStore_value penv t gparams = Normal (Payload payload)) →
  unexpired payload t ∧ not_before_ok payload t.
Proof.
  intros [H|[Hd H]]; [exact (decode_checked _ _ _ _ _ H)|].
  destruct (req gparams) as [r|] eqn:Hr;
    [|rewrite getToken_no_req in H by exact Hr; discriminate H].
  destruct (otruthy (effective_secret penv gparams)) eqn:Hs;
    [|rewrite (getToken_no_secret _ _ _ _ _ _ r Hr Hs) in H; discriminate H].
  destruct (effective_secret penv gparams) as [sec|] eqn:Hsec; [|discriminate Hs].
  rewrite (getToken_found _ _ _ penv t gparams r sec Hr Hsec Hs) in H.
  destruct (bearerToken _ _) as [token|e]; [|discriminate H].
  change (Normal (if truthy token
                  then outcome (default (decode hkdf jweDecrypt t) (decode_param gparams))
                         (raw gparams) sec token
                  else Null) = Normal (Payload payload)) in H.
  destruct (truthy token); [|discriminate H].
  unfold outcome in H. rewrite Hd in H.
  destruct (default false (raw gparams)); [discriminate H|].
  change (default (decode hkdf jweDecrypt t) None) with (decode hkdf jweDecrypt t) in H.
  destruct (decode hkdf jweDecrypt t _) as [[payload'|]|e] eqn:Hdec; try discriminate H.
  injection H as <-. exact (decode_checked _ _ _ _ _ Hdec).
Qed.

Lemma decode_issued hkdf jweEncrypt jweDecrypt env t
    (p : gmap string json) (s : string) (maxAge : Z) :
  let params := {| enc_token := Some p; enc_secret := s; enc_maxAge := Some maxAge |} in
  let key := getDerivedEncryptionKey hkdf s in
  let token := jweEncrypt A256GCM_dir key (issued_claims env params) (iv env) in
  truthy token = true →
  jweDecrypt token key = Normal (A256GCM_dir, issued_claims env params) →
  not_before_ok p t →
  decode hkdf jweDecrypt t {| dec_token := Some token; dec_secret := s |}
  = if now (now_clock env) + maxAge <=? epoch t - 15
    then Throw JWTExpired
    else Normal (Some (issued_claims env params)).
Proof.
  intros params key token token_truthy token_opens Hnbf.
  unfold decode, jwtDecrypt. cbn [dec_token dec_secret].
  rewrite token_truthy. cbn [negb]. fold key. rewrite token_opens. cbn.
  unfold check_iat. rewrite issued_iat. cbn.
  unfold check_nbf. rewrite issued_other by done.
  change (default ∅ (enc_token params)) with p.
  unfold not_before_ok in Hnbf.
  destruct (p !! "nbf") as [[| |n| | |]|]; try done.
  - destruct (Z.gtb_spec n (epoch t + 15)); [lia|]. cbn.
    unfold check_exp. rewrite issued_exp. cbn.
    now destruct (now (now_clock env) + maxAge <=? epoch t - 15).
  - cbn. unfold check_exp. rewrite issued_exp. cbn.
    now destruct (now (now_clock env) + maxAge <=? epoch t - 15).
Qed.

(** X2: From 15 seconds after its expiration time on, the token encode issued
    for a payload of JSON data whose own nbf field, if it has one, is a
    number at most 15 seconds ahead, is rejected by decode with JWTExpired,
    and getToken answers null to a request that carries it in the session
    cookie. It is assumed that jose opens the token it sealed and that the
    token is not empty. *)
Theorem issued_token_expires hkdf jweEncrypt jweDecrypt SessionStore_value env t
    (p : gmap string json) (s : string) (maxAge : Z) penv gparams r :
  let params := {| enc_token := Some p; enc_secret := s; enc_maxAge := Some maxAge |} in
  let key := getDerivedEncryptionKey hkdf s in
  let token := jweEncrypt A256GCM_dir key (issued_claims env params) (iv env) in
  truthy token = true →
  jweDecrypt token key = Normal (A256GCM_dir, issued_claims env params) →
  not_before_ok p t →
  now (now_clock env) + maxAge <= epoch t - 15 →
  req gparams = Some r →
  effective_secret penv gparams = Some s →
  truthy s = true →
  decode_param gparams = None →
  default false (raw gparams) = false →
  SessionStore_value
    (default (default_cookieName (effective_secureCookie penv gparams)) (cookieName gparams))
    (effective_secureCookie penv gparams) (cookies r) (headers r) = token →
  decode hkdf jweDecrypt t {| dec_token := Some token; dec_secret := s |} = Throw JWTExpired
  ∧ getToken hkdf jweDecrypt SessionStore_value penv t gparams = Normal Null.
Proof.
  intros params key token token_truthy token_opens Hnbf Hexp Hr Hs Hsec Hd Hraw Hstore.
  assert (Hdec : decode hkdf jweDecrypt t {| dec_token := Some token; dec_secret := s |}
                 = Throw JWTExpired).
  { unfold token, key, params.
    rewrite (decode_issued hkdf jweEncrypt jweDecrypt env t p s maxAge
               token_truthy token_opens Hnbf).
    destruct (Z.leb_spec (now (now_clock env) + maxAge) (epoch t - 15)); [reflexivity | lia]. }
  split; [exact Hdec|].
  eapply (getToken_decode_throws hkdf jweDecrypt SessionStore_value penv t gparams r s token);
    try eassumption.
  - unfold bearerToken. rewrite Hstore, token_truthy.
    now destruct (authorization (headers r)).
  - rewrite Hd. exact Hdec.
Qed.

Lemma Decode_plain (x : string) (lo hi : Z) :
  GenerateProviders.occurs "%" x = false → Decode x Outside O lo hi = Some x.
Proof.
  induction x as [|c x IH]; cbn; [reflexivity|].
  intros H. apply orb_false_elim in H as [Hc Hx].
  rewrite Hc. now rewrite (IH Hx).
Qed.

Lemma split_plain (x : string) :
  GenerateProviders.occurs " " x = false → split " " x = [x].
Proof.
  induction x as [|c x IH]; cbn; [reflexivity|].
  intros H. apply orb_false_elim in H as [Hc Hx].
  rewrite Hc. now rewrite (IH Hx).
Qed.

Lemma split_at_first (pre x : string) :
  GenerateProviders.occurs " " pre = false →
  split " " (pre +:+ String " " x) = pre :: split " " x.
Proof.
  induction pre as [|c pre IH]; intros H.
  - reflexivity.
  - apply orb_false_elim in H as [Hc Hpre].
    change (String c pre +:+ String " " x) with (String c (pre +:+ String " " x)).
    cbn [split]. cbn [GenerateProviders.occurs] in Hc.
    rewrite Hc. now rewrite (IH Hpre).
Qed.

(** X4: A token with no space and no percent sign comes back unchanged from the
    header "Authorization: Bearer <token>" when the session cookie store
    has no token: getToken finds exactly that token. *)
Theorem bearer_round_trip hkdf jweDecrypt SessionStore_value penv t params r sec
    (token : string) :
  req params = Some r →
  effective_secret penv params = Some sec →
  truthy sec = true →
  SessionStore_value
    (default (default_cookieName (effective_secureCookie penv params)) (cookieName params))
    (effective_secureCookie penv params) (cookies r) (headers r) = EmptyString →
  authorization (headers r) = Some ("Bearer " +:+ token) →
  truthy token = true →
  GenerateProviders.occurs " " token = false →
  GenerateProviders.occurs "%" token = false →
  getToken hkdf jweDecrypt SessionStore_value penv t params
  = Normal (outcome (default (decode hkdf jweDecrypt t) (decode_param params))
              (raw params) sec token).
Proof.
  intros Hr Hs Hsec Hstore Hh Htok Hsp Hpc.
  rewrite (getToken_found hkdf jweDecrypt SessionStore_value penv t params r sec Hr Hs Hsec).
  rewrite Hstore, Hh. unfold bearerToken.
  assert (Hsplit : split " " ("Bearer " +:+ token) = ["Bearer"; token]).
  { change ("Bearer " +:+ token) with ("Bearer" +:+ String " " token).
    rewrite split_at_first by reflexivity. now rewrite (split_plain token Hsp). }
  rewrite Hsplit. rewrite bool_decide_eq_true_2 by reflexivity.
  cbn [truthy negb andb lookup list_lookup].
  unfold decodeURIComponent. cbn [default]. change (id token) with token.
  rewrite (Decode_plain token 128 191 Hpc). cbn. now rewrite Htok.
Qed.

(** X5: A secret parameter that is the empty string is not replaced by the
    AUTH_SECRET of the environment: getToken fails with MissingSecret. *)
Theorem empty_secret_is_missing hkdf jweDecrypt SessionStore_value penv t params r :
  req params = Some r →
  secret params = Some EmptyString →
  getToken hkdf jweDecrypt SessionStore_value penv t params
  = Throw (MissingSecret "Must pass `secret` if not set to JWT getToken()").
Proof.
  intros Hr Hs. apply (getToken_no_secret _ _ _ _ _ _ r Hr).
  unfold effective_secret. now rewrite Hs.
Qed.

(** X8: Before 2038 the token lives at least maxAge seconds: "exp" less "iat"
    is maxAge plus the whole seconds that passed between the two readings
    of the clock inside encode. *)
Theorem issued_lifetime hkdf jweEncrypt env params :
  0 <= issuedAt_clock env <= now_clock env →
  now_clock env < 2 ^ 31 * 1000 →
  ∃ iat exp,
    encode hkdf jweEncrypt env params
    = Normal (jweEncrypt A256GCM_dir (getDerivedEncryptionKey hkdf (enc_secret params))
                (issued_claims env params) (iv env))
    ∧ issued_claims env params !! "iat" = Some (JNumber iat)
    ∧ issued_claims env params !! "exp" = Some (JNumber exp)
    ∧ exp - iat
      = default DEFAULT_MAX_AGE (enc_maxAge params)
        + (epoch (now_clock env) - epoch (issuedAt_clock env))
    ∧ default DEFAULT_MAX_AGE (enc_maxAge params) <= exp - iat.
Proof.
  intros Hclock H2038.
  exists (epoch (issuedAt_clock env)),
         (epoch (now_clock env) + default DEFAULT_MAX_AGE (enc_maxAge params)).
  split; [reflexivity|]. split; [apply issued_iat|].
  split; [rewrite issued_exp, now_before_2038 by lia; reflexivity|].
  split; [lia|].
  assert (epoch (issuedAt_clock env) <= epoch (now_clock env))
    by (unfold epoch; apply Z.div_le_mono; lia).
  lia.
Qed.

Lemma no_expired_payload_witness :
  unexpired Samples.claims 1700000030000 ∧ not_before_ok Samples.claims 1700000030000.
Proof.
  apply (no_expired_payload StandIns.hkdf
           (StandIns.jweDecrypt "e.e.e.e.e" Samples.key A256GCM_dir Samples.claims)
           StandIns.SessionStore_value StandIns.empty_env 1700000030000
           {| dec_token := Some "e.e.e.e.e"; dec_secret := "secret" |} Samples.params).
  left. vm_compute. reflexivity.
Defined.

Lemma issued_token_expires_witness :
  getToken StandIns.hkdf
    (StandIns.jweDecrypt "e.e.e.e.e" Samples.key A256GCM_dir Samples.claims)
    StandIns.SessionStore_value StandIns.empty_env 1700000100000 Samples.params
  = Normal Null.
Proof.
  refine (proj2 (issued_token_expires StandIns.hkdf (StandIns.jweEncrypt "e.e.e.e.e")
                   (StandIns.jweDecrypt "e.e.e.e.e" Samples.key A256GCM_dir Samples.claims)
                   StandIns.SessionStore_value Samples.env 1700000100000 Samples.payload
                   "secret" 60 StandIns.empty_env Samples.params Samples.request
                   eq_refl eq_refl _ _ eq_refl eq_refl eq_refl eq_refl eq_refl eq_refl)).
  - vm_compute. exact I.
  - vm_compute. discriminate.
Defined.

Lemma bearer_round_trip_witness :
  getToken StandIns.hkdf StandIns.reject_all StandIns.SessionStore_value
    StandIns.empty_env 0 (Samples.bearer_params "Bearer abc.def" (Some true))
  = Normal (RawToken "abc.def").
Proof.
  exact (bearer_round_trip StandIns.hkdf StandIns.reject_all StandIns.SessionStore_value
           StandIns.empty_env 0 (Samples.bearer_params "Bearer abc.def" (Some true))
           (Samples.bearer_request "Bearer abc.def") "secret" "abc.def"
           eq_refl eq_refl eq_refl eq_refl eq_refl eq_refl eq_refl eq_refl).
Defined.

Lemma empty_secret_is_missing_witness :
  getToken StandIns.hkdf StandIns.reject_all StandIns.SessionStore_value
    {| NEXTAUTH_URL := None; VERCEL := None; AUTH_SECRET := Some "from the environment" |} 0
    {| req := Some Samples.request; secureCookie := None; cookieName := None;
       raw := None; decode_param := None; secret := Some "" |}
  = Throw (MissingSecret "Must pass `secret` if not set to JWT getToken()").
Proof.
  exact (empty_secret_is_missing StandIns.hkdf StandIns.reject_all
           StandIns.SessionStore_value
           {| NEXTAUTH_URL := None; VERCEL := None;
              AUTH_SECRET := Some "from the environment" |} 0
           {| req := Some Samples.request; secureCookie := None; cookieName := None;
              raw := None; decode_param := None; secret := Some "" |}
           Samples.request eq_refl eq_refl).
Defined.

Lemma issued_lifetime_witness :
  ∃ iat exp,
    issued_claims Samples.env
      {| enc_token := None; enc_secret := "secret"; enc_maxAge := None |} !! "iat"
    = Some (JNumber iat)
    ∧ issued_claims Samples.env
        {| enc_token := None; enc_secret := "secret"; enc_maxAge := None |} !! "exp"
      = Some (JNumber exp)
    ∧ 2592000 <= exp - iat.
Proof.
  destruct (issued_lifetime StandIns.hkdf (StandIns.jweEncrypt "t") Samples.env
              {| enc_token := None; enc_secret := "secret"; enc_maxAge := None |})
    as (iat & exp & _ & Hiat & Hexp & _ & Hle).
  - vm_compute. split; discriminate.
  - vm_compute. reflexivity.
  - exists iat, exp. split; [exact Hiat|]. split; [exact Hexp | exact Hle].
Defined.

(** X6: getToken fails in three ways only: the request is missing, no
    secret is available, or the word after "Bearer" in the Authorization
    header cannot be URL-decoded. *)
Theorem getToken_fails_in_three_ways hkdf jweDecrypt SessionStore_value penv t params e :
  getToken hkdf jweDecrypt SessionStore_value penv t params = Throw e →
  req params = None
  ∨ otruthy (effective_secret penv params) = false
  ∨ ∃ r h, req params = Some r
           ∧ authorization (headers r) = Some h
           ∧ split " " h !! 0%nat = Some "Bearer"
           ∧ decodeURIComponent (split " " h !! 1%nat) = Throw e.
Proof.
  intros H.
  destruct (req params) as [r|] eqn:Hr; [|now left]. right.
  destruct (effective_secret penv params) as [sec|] eqn:Hs; [|now left].
  destruct (truthy sec) eqn:Hsec; [|now left]. right.
  rewrite (getToken_found _ _ _ penv t params r sec Hr Hs Hsec) in H.
  unfold bearerToken in H.
  destruct (authorization (headers r)) as [h|] eqn:Hh; [|cbn in H; discriminate H].
  exists r, h. split; [reflexivity|]. split; [exact Hh|].
  destruct (negb (truthy _)); cbn [andb] in H; [|cbn in H; discriminate H].
  destruct (bool_decide (split " " h !! 0%nat = Some "Bearer")) eqn:Hb;
    [|cbn in H; discriminate H].
  apply bool_decide_eq_true_1 in Hb. split; [exact Hb|].
  destruct (decodeURIComponent _) as [token|e']; cbn in H; [discriminate H|].
  congruence.
Qed.

Lemma getToken_fails_in_three_ways_witness :
  req (Samples.bearer_params "Bearer %" None) = None
  ∨ otruthy (effective_secret StandIns.empty_env (Samples.bearer_params "Bearer %" None)) = false
  ∨ ∃ r h, req (Samples.bearer_params "Bearer %" None) = Some r
           ∧ authorization (headers r) = Some h
           ∧ split " " h !! 0%nat = Some "Bearer"
           ∧ decodeURIComponent (split " " h !! 1%nat) = Throw URIError.
Proof.
  apply (getToken_fails_in_three_ways StandIns.hkdf StandIns.reject_all
           StandIns.SessionStore_value StandIns.empty_env 0
           (Samples.bearer_params "Bearer %" None) URIError).
  reflexivity.
Defined.

End JwtMore.

(** ** generate-providers.js: a file name with nothing before its dot *)

Module GenerateProvidersMore.

Import GenerateProviders GenerateProvidersFacts.

(** X9: A directory entry without a dot, or one that starts with a dot, puts the
    empty string literal among the members of the union. *)
Theorem nameless_file_gives_empty_member (files : list string) (f : string) :
  In f files →
  occurs "." f = false ∨ (∃ rest, f = String "." rest) →
  In (String dquote (String dquote EmptyString)) (providers files).
Proof.
  intros Hin Hf. unfold providers. apply filter_In. split.
  - apply in_map_iff. exists f. split; [|exact Hin].
    unfold quotedProviderName. destruct Hf as [Hf|[rest ->]].
    + now rewrite (stripped_without_dot f Hf).
    + reflexivity.
  - reflexivity.
Qed.

Lemma nameless_file_gives_empty_member_witness :
  In (String dquote (String dquote EmptyString))
    (providers ["github.ts"; "LICENSE"; "google.ts"]).
Proof.
  apply (nameless_file_gives_empty_member ["github.ts"; "LICENSE"; "google.ts"] "LICENSE").
  - right. left. reflexivity.
  - left. reflexivity.
Defined.

End GenerateProvidersMore.

(** ** The SvelteKit client helpers: what follows the POST *)

Module SvelteKitClientMore.

Import JSString SvelteKitClient SvelteKitClientFacts Vocabulary.

Lemma fetched_csrfToken_inv network url token :
  fetched_csrfToken network url = Normal token →
  ∃ response j,
    network [] url None = Normal response
    ∧ json_body response = Normal j
    ∧ get_property j "csrfToken" = Normal token.
Proof.
  unfold fetched_csrfToken. intros H.
  destruct (network [] url None) as [response|e]; [|discriminate H].
  cbn in H. destruct (json_body response) as [j|e] eqn:Hj; [|discriminate H].
  cbn in H. exists response, j. repeat split; assumption.
Qed.

(** signIn up to the answer to its POST. *)
Lemma signIn_posted parse network base href providerId options authorizationParams token res :
  let url := signIn_url parse base providerId authorizationParams in
  let init := signIn_init parse href options token in
  fetched_csrfToken network (csrf_url base) = Normal token →
  network [Fetched (csrf_url base) None] url (Some init) = Normal res →
  run network [] (signIn parse base href providerId options authorizationParams)
  = run network [Fetched (csrf_url base) None; Fetched url (Some init)]
      (data ← lift (json_body res);
       if redirect_of options || negb (isSupportingReturn providerId) then
         url ← lift (get_property data "url");
         set_location_href (ToString (nullish url (callbackUrl_of href options)));;
         hash ← lift (includes_hash url);
         (if hash : bool then location_reload else mret ());;
         mret None
       else mret (Some res)).
Proof.
  intros url init Htoken Hpost.
  destruct (fetched_csrfToken_inv _ _ _ Htoken) as (response & j & Hn & Hj & Ht).
  unfold signIn. fold (csrf_url base). cbn.
  rewrite Hn. cbn. rewrite Hj. cbn. rewrite Ht. cbn.
  fold (callbackUrl_of href options).
  fold (signIn_url parse base providerId authorizationParams). fold url.
  change {| method := "post"; init_headers := form_headers;
            body := map (λ kv : string * option json, (kv.1, ToString_opt kv.2))
                      (set "callbackUrl" (Some (callbackUrl_of href options))
                         (set "csrfToken" token (spread options []))) |}
    with init.
  rewrite Hpost. reflexivity.
Qed.

(** signOut up to the answer to its POST. *)
Lemma signOut_posted parse network base href options token res :
  let url := default "" base +:+ "/auth/signout" in
  let init := signOut_init parse href options token in
  fetched_csrfToken network (csrf_url base) = Normal token →
  network [Fetched (csrf_url base) None] url (Some init) = Normal res →
  run network [] (signOut parse base href options)
  = run network [Fetched (csrf_url base) None; Fetched url (Some init)]
      (data ← lift (json_body res);
       dataUrl ← lift (get_property data "url");
       let url := nullish dataUrl (callbackUrl_of href options) in
       set_location_href (ToString url);;
       hash ← lift (includes_hash (Some url));
       if hash : bool then location_reload else mret ()).
Proof.
  intros url init Htoken Hpost.
  destruct (fetched_csrfToken_inv _ _ _ Htoken) as (response & j & Hn & Hj & Ht).
  unfold signOut. fold (csrf_url base). cbn.
  rewrite Hn. cbn. rewrite Hj. cbn. rewrite Ht. cbn.
  fold (callbackUrl_of href options). fold url.
  change {| method := "post"; init_headers := form_headers;
            body := [("csrfToken", ToString_opt token);
                     ("callbackUrl", ToString (callbackUrl_of href options))] |}
    with init.
  rewrite Hpost. reflexivity.
Qed.

(** X10: With redirect false and the provider "credentials" or "email", signIn
    leaves the page where it is: after the token request and the POST it
    does nothing more and returns the response to the POST. *)
Theorem signIn_returns_response parse network base href providerId options
    authorizationParams token res data :
  let url := signIn_url parse base providerId authorizationParams in
  let init := signIn_init parse href options token in
  isSupportingReturn providerId = true →
  redirect_of options = false →
  fetched_csrfToken network (csrf_url base) = Normal token →
  network [Fetched (csrf_url base) None] url (Some init) = Normal res →
  json_body res = Normal data →
  run network [] (signIn parse base href providerId options authorizationParams)
  = ([Fetched (csrf_url base) None; Fetched url (Some init)], Normal (Some res)).
Proof.
  intros url init Hsup Hred Htoken Hpost Hdata.
  rewrite (signIn_posted parse network base href providerId options authorizationParams
             token res Htoken Hpost).
  rewrite Hdata, Hred, Hsup. reflexivity.
Qed.

(** X11: For any other provider, or with redirect left on, signIn sends the page
    to the url of the answer, reloads it when that url has a hash, and
    returns nothing: redirect false alone does not keep the page. *)
Theorem signIn_navigates parse network base href providerId options
    authorizationParams token res data (target : string) :
  let url := signIn_url parse base providerId authorizationParams in
  let init := signIn_init parse href options token in
  redirect_of options = true ∨ isSupportingReturn providerId = false →
  fetched_csrfToken network (csrf_url base) = Normal token →
  network [Fetched (csrf_url base) None] url (Some init) = Normal res →
  json_body res = Normal data →
  get_property data "url" = Normal (Some (JString target)) →
  run network [] (signIn parse base href providerId options authorizationParams)
  = ([Fetched (csrf_url base) None; Fetched url (Some init); HrefSet target]
     ++ reload_if_hash target,
     Normal None).
Proof.
  intros url init Hcond Htoken Hpost Hdata Hurl.
  rewrite (signIn_posted parse network base href providerId options authorizationParams
             token res Htoken Hpost).
  rewrite Hdata.
  assert (Hc : redirect_of options || negb (isSupportingReturn providerId) = true).
  { destruct Hcond as [->| ->]; [reflexivity | now rewrite orb_true_r]. }
  cbn. rewrite Hc, Hurl. cbn. unfold reload_if_hash.
  now destruct (string_includes target "#").
Qed.

(** X12: When the answer to the POST has no url, signIn sends the page to
    callbackUrl and then fails with a TypeError: it asks the missing url
    whether it has a hash. *)
Theorem signIn_without_url_fails parse network base href providerId options
    authorizationParams token res data :
  let url := signIn_url parse base providerId authorizationParams in
  let init := signIn_init parse href options token in
  redirect_of options = true ∨ isSupportingReturn providerId = false →
  fetched_csrfToken network (csrf_url base) = Normal token →
  network [Fetched (csrf_url base) None] url (Some init) = Normal res →
  json_body res = Normal data →
  get_property data "url" = Normal None →
  run network [] (signIn parse base href providerId options authorizationParams)
  = ([Fetched (csrf_url base) None; Fetched url (Some init);
      HrefSet (ToString (callbackUrl_of href options))],
     Throw (TypeError "Cannot read properties of undefined")).
Proof.
  intros url init Hcond Htoken Hpost Hdata Hurl.
  rewrite (signIn_posted parse network base href providerId options authorizationParams
             token res Htoken Hpost).
  rewrite Hdata.
  assert (Hc : redirect_of options || negb (isSupportingReturn providerId) = true).
  { destruct Hcond as [->| ->]; [reflexivity | now rewrite orb_true_r]. }
  cbn. rewrite Hc, Hurl. reflexivity.
Qed.

(** X13: signOut sends the page to the url of the answer, or to callbackUrl when
    the answer has none or null, and reloads it when the address has a
    hash. *)
Theorem signOut_navigates parse network base href options token res data dataUrl
    (target : string) :
  let url := default "" base +:+ "/auth/signout" in
  let init := signOut_init parse href options token in
  fetched_csrfToken network (csrf_url base) = Normal token →
  network [Fetched (csrf_url base) None] url (Some init) = Normal res →
  json_body res = Normal data →
  get_property data "url" = Normal dataUrl →
  nullish dataUrl (callbackUrl_of href options) = JString target →
  run network [] (signOut parse base href options)
  = ([Fetched (csrf_url base) None; Fetched url (Some init); HrefSet target]
     ++ reload_if_hash target,
     Normal ()).
Proof.
  intros url init Htoken Hpost Hdata Hurl Htarget.
  rewrite (signOut_posted parse network base href options token res Htoken Hpost).
  rewrite Hdata. cbn. rewrite Hurl. cbn. rewrite Htarget. cbn.
  unfold reload_if_hash. now destruct (string_includes target "#").
Qed.

Lemma run_extends {A} network (c : Client A) (history : list Event) :
  ∃ rest, (run network history c).1 = history ++ rest.
Proof.
  revert history. induction c as [r|input init k IH|url k IH|k IH]; cbn; intros history.
  - exists []. now rewrite app_nil_r.
  - destruct (IH (network history input init) (history ++ [Fetched input init]))
      as (rest & ->).
    exists (Fetched input init :: rest). now rewrite <- app_assoc.
  - destruct (IH (history ++ [HrefSet url])) as (rest & ->).
    exists (HrefSet url :: rest). now rewrite <- app_assoc.
  - destruct (IH (history ++ [Reloaded])) as (rest & ->).
    exists (Reloaded :: rest). now rewrite <- app_assoc.
Qed.

Lemma set_fresh k v (o : list (string * option json)) :
  k ∉ keys o → set k v o = o ++ [(k, v)].
Proof.
  induction o as [|[k' v'] o IH]; cbn; intros H; [reflexivity|].
  apply not_elem_of_cons in H as [Hne H].
  destruct (String.eqb_spec k' k) as [->|_]; [contradiction|]. now rewrite IH.
Qed.

Lemma spread_NoDup_onto (o acc : list (string * option json)) :
  NoDup (keys acc ++ keys o) →
  fold_left (λ acc kv, set kv.1 kv.2 acc) o acc = acc ++ o.
Proof.
  revert acc. induction o as [|[k v] o IH]; cbn; intros acc H.
  - now rewrite app_nil_r.
  - apply NoDup_app in H as (Hacc & Hdisj & Ho).
    apply NoDup_cons in Ho as [Hk Ho].
    rewrite set_fresh.
    + rewrite IH; [now rewrite <- app_assoc|].
      unfold keys. rewrite map_app. cbn. rewrite <- app_assoc. cbn.
      apply NoDup_app. repeat split; [exact Hacc | | now apply NoDup_cons].
      intros x Hx Hx'. exact (Hdisj x Hx Hx').
    + intros Hin. apply (Hdisj k Hin). apply list_elem_of_here.
Qed.

(** Spreading an object with distinct property names into an empty one
    gives the object back. *)
Lemma spread_NoDup (o : list (string * option json)) :
  NoDup (keys o) → spread (Some o) [] = o.
Proof. intros H. unfold spread. cbn. now rewrite spread_NoDup_onto. Qed.

Lemma In_set_other k k' v v' (o : list (string * option json)) :
  k ≠ k' → In (k, v) o → In (k, v) (set k' v' o).
Proof.
  intros Hne. induction o as [|[k0 v0] o IH]; cbn; [tauto|].
  intros [Heq|Hin].
  - injection Heq as -> ->.
    destruct (String.eqb_spec k k'); [contradiction | now left].
  - destruct (String.eqb_spec k0 k'); right; [exact Hin | now apply IH].
Qed.

(** X14: The form that signIn posts carries one callbackUrl field, the
    callbackUrl option or else the address of the page, and every other
    option as a field of its own; no option can take the place of the
    fetched csrfToken. *)
Theorem signIn_form_fields parse network base href providerId
    (options : list (string * option json)) authorizationParams token :
  let form := body (signIn_init parse href (Some options) token) in
  NoDup (keys options) →
  fetched_csrfToken network (csrf_url base) = Normal token →
  (run network [] (signIn parse base href providerId (Some options)
                     authorizationParams)).1 !! 1%nat
  = Some (Fetched (signIn_url parse base providerId authorizationParams)
            (Some (signIn_init parse href (Some options) token)))
  ∧ List.filter (λ nv, String.eqb nv.1 "callbackUrl") form
    = [("callbackUrl", ToString (default (JString href) (get "callbackUrl" options)))]
  ∧ List.filter (λ nv, String.eqb nv.1 "csrfToken") form
    = [("csrfToken", ToString_opt token)]
  ∧ ∀ k v, In (k, v) options → k ≠ "csrfToken" → k ≠ "callbackUrl" →
           In (k, ToString_opt v) form.
Proof.
  intros form Hnd Htoken. split; [|split; [|split]].
  - destruct (fetched_csrfToken_inv _ _ _ Htoken) as (response & j & Hn & Hj & Ht).
    unfold signIn. fold (csrf_url base). cbn.
    rewrite Hn. cbn. rewrite Hj. cbn. rewrite Ht. cbn.
    match goal with
    | |- context [run network ?h ?c] => destruct (run_extends network c h) as (rest & ->)
    end.
    reflexivity.
  - unfold form, signIn_init. cbn [body new_URLSearchParams].
    rewrite filter_record_body. rewrite filter_set_same; [reflexivity|].
    apply NoDup_set, NoDup_spread. constructor.
  - apply (body_csrfToken parse). apply NoDup_spread. constructor.
  - intros k v Hin Hc Hcb. unfold form, signIn_init. cbn [body new_URLSearchParams].
    apply (in_map (λ kv : string * option json, (kv.1, ToString_opt kv.2)) _ (k, v)).
    apply In_set_other; [exact Hcb|]. apply In_set_other; [exact Hc|].
    now rewrite (spread_NoDup options Hnd).
Qed.

(** *** The same properties on sample inputs *)

Lemma signIn_returns_response_witness :
  let network := StandIns.network (JObject [("csrfToken", JString "t0k"); ("url", JString "/in")]) in
  let options := Some [("redirect", Some (JBool false)); ("username", Some (JString "ada"))] in
  ∃ res,
    run network [] (signIn (λ _, []) None "https://example.org/" (Some "credentials")
                      options InitUndefined)
    = ([Fetched "/auth/csrf" None;
        Fetched "/auth/callback/credentials?"
          (Some {| method := "post"; init_headers := form_headers;
                   body := [("redirect", "false"); ("username", "ada");
                            ("csrfToken", "t0k");
                            ("callbackUrl", "https://example.org/")] |})],
       Normal (Some res)).
Proof.
  intros network options. eexists.
  exact (signIn_returns_response (λ _, []) network None "https://example.org/"
           (Some "credentials") options InitUndefined (Some (JString "t0k")) _ _
           eq_refl eq_refl eq_refl eq_refl eq_refl).
Defined.

Lemma signIn_navigates_witness :
  let network :=
    StandIns.network (JObject [("csrfToken", JString "t0k"); ("url", JString "/in#top")]) in
  (run network [] (signIn (λ _, []) None "https://example.org/" (Some "github")
                     (Some [("redirect", Some (JBool false))]) InitUndefined)).1
  = [Fetched "/auth/csrf" None;
     Fetched "/auth/signin/github?"
       (Some {| method := "post"; init_headers := form_headers;
                body := [("redirect", "false"); ("csrfToken", "t0k");
                         ("callbackUrl", "https://example.org/")] |});
     HrefSet "/in#top"; Reloaded].
Proof.
  intros network.
  rewrite (signIn_navigates (λ _, []) network None "https://example.org/"
             (Some "github") (Some [("redirect", Some (JBool false))]) InitUndefined
             (Some (JString "t0k")) _ _ "/in#top"
             (or_intror eq_refl) eq_refl eq_refl eq_refl eq_refl).
  reflexivity.
Defined.

Lemma signIn_without_url_fails_witness :
  let network := StandIns.network (JObject [("csrfToken", JString "t0k")]) in
  (run network [] (signIn (λ _, []) None "https://example.org/" (Some "github")
                     None InitUndefined)).2
  = Throw (TypeError "Cannot read properties of undefined").
Proof.
  intros network.
  rewrite (signIn_without_url_fails (λ _, []) network None "https://example.org/"
             (Some "github") None InitUndefined
             (Some (JString "t0k")) _ _
             (or_introl eq_refl) eq_refl eq_refl eq_refl eq_refl).
  reflexivity.
Defined.

Lemma signOut_navigates_witness :
  let network := StandIns.network (JObject [("csrfToken", JString "t0k")]) in
  run network [] (signOut (λ _, []) (Some "/app") "https://example.org/me#x" None)
  = ([Fetched "/app/auth/csrf" None;
      Fetched "/app/auth/signout"
        (Some {| method := "post"; init_headers := form_headers;
                 body := [("csrfToken", "t0k");
                          ("callbackUrl", "https://example.org/me#x")] |});
      HrefSet "https://example.org/me#x"; Reloaded],
     Normal ()).
Proof.
  intros network.
  exact (signOut_navigates (λ _, []) network (Some "/app") "https://example.org/me#x" None
           (Some (JString "t0k")) _ _ None "https://example.org/me#x"
           eq_refl eq_refl eq_refl eq_refl eq_refl).
Defined.

Lemma signIn_form_fields_witness :
  let options := [("csrfToken", Some (JString "forged")); ("username", Some (JString "ada"))] in
  List.filter (λ nv, String.eqb nv.1 "csrfToken")
    (body (signIn_init (λ _, []) "https://example.org/" (Some options) (Some (JString "t0k"))))
  = [("csrfToken", "t0k")].
Proof.
  intros options.
  refine (proj1 (proj2 (proj2
    (signIn_form_fields (λ _, [])
       (StandIns.network (JObject [("csrfToken", JString "t0k")]))
       None "https://example.org/" (Some "credentials") options InitUndefined
       (Some (JString "t0k")) _ eq_refl)))).
  apply (bool_decide_unpack _). vm_compute. exact I.
Defined.

End SvelteKitClientMore.

(** ** The MikroORM adapter: the other operations *)

Module MikroOrmAdapterMore.

Import MikroOrmAdapter MikroOrmAdapterRest MikroOrmAdapterFacts.

Lemma set_rows_set_rows m l l' db : set_rows m l (set_rows m l' db) = set_rows m l db.
Proof. now destruct m. Qed.

Lemma rows_set_rows_other m m' l db : m ≠ m' → rows m (set_rows m' l db) = rows m db.
Proof. destruct m, m'; intros H; try reflexivity; contradiction. Qed.

(** The rows before the one findOne takes do not satisfy the clause. *)
Lemma find_row_first where_ l i :
  find_row where_ l = Some i →
  ∀ j r, (j < i)%nat → l !! j = Some r → satisfies where_ r = false.
Proof.
  revert i. induction l as [|r0 l IH]; cbn; intros i H j r Hlt Hj; [discriminate|].
  destruct (satisfies where_ r0) eqn:E.
  - injection H as <-. lia.
  - destruct (find_row where_ l) as [i'|] eqn:Hl; [|discriminate].
    injection H as <-. destruct j as [|j]; cbn in Hj.
    + now injection Hj as <-.
    + apply (IH i' eq_refl j r); [lia | exact Hj].
Qed.

Lemma find_row_at where_ l i r :
  l !! i = Some r → satisfies where_ r = true →
  (∀ j r', (j < i)%nat → l !! j = Some r' → satisfies where_ r' = false) →
  find_row where_ l = Some i.
Proof.
  revert i. induction l as [|r0 l IH]; cbn; intros i Hi Hs Hbefore; [discriminate|].
  destruct i as [|i]; cbn in Hi.
  - injection Hi as ->. now rewrite Hs.
  - rewrite (Hbefore O r0 ltac:(lia) eq_refl).
    rewrite (IH i Hi Hs); [reflexivity|].
    intros j r' Hlt Hj. apply (Hbefore (S j) r'); [lia | exact Hj].
Qed.

(** A new last row is the one found when no row before it satisfies the
    clause. *)
Lemma find_row_appended where_ l r :
  find_row where_ l = None → satisfies where_ r = true →
  find_row where_ (l ++ [r]) = Some (length l).
Proof.
  intros Hnone Hs. apply (find_row_at where_ (l ++ [r]) (length l) r).
  - now rewrite lookup_app_r, Nat.sub_diag by lia.
  - exact Hs.
  - intros j r' Hlt Hj. rewrite lookup_app_l in Hj by exact Hlt.
    exact (proj1 (find_row_None where_ l) Hnone j r' Hj).
Qed.

Lemma delete_appended {A} (l : list A) (x : A) : delete (length l) (l ++ [x]) = l.
Proof. rewrite delete_middle. apply app_nil_r. Qed.

Section WithDatabase.

Variable rejects : Model → list (gmap string value) → gmap string value → option JSError.
Variable findOne_undefined_id : EM (option Entity).

Lemma insertAndFlush_accepted m r db :
  rejects m (rows m db) r = None →
  insertAndFlush rejects m r db
  = (Normal {| model := m; row := length (rows m db); props := r |},
     set_rows m (rows m db ++ [r]) db).
Proof. intros H. unfold insertAndFlush. now rewrite H. Qed.

(** X15: For an account that is stored, getUserByAccount returns its user, and
    fails with a TypeError when that user is not stored: it does not
    return null there. The database is left as it is. *)
Theorem getUserByAccount_found where_ db i account userId :
  find_row where_ (Account db) = Some i →
  Account db !! i = Some account →
  account !! "userId" = Some userId →
  getUserByAccount findOne_undefined_id where_ db
  = match find_row {[ "id" := userId ]} (User db) with
    | None => (Throw (TypeError "Cannot read properties of null (reading 'toObject')"), db)
    | Some j => (Normal (User db !! j), db)
    end.
Proof.
  intros Hfind Hacc Huid.
  destruct (findOne_found AccountModel where_ db i Hfind) as (r & Hr & _ & Hf).
  cbn [rows] in Hr. rewrite Hacc in Hr. injection Hr as <-.
  unfold getUserByAccount. unfold mbind, em_bind. rewrite Hf. cbn [props].
  rewrite Huid.
  destruct (find_row {[ "id" := userId ]} (User db)) as [j|] eqn:Hu.
  - destruct (findOne_found UserModel _ db j Hu) as (u & Hj & _ & Hfu).
    rewrite Hfu. cbn. cbn [rows] in Hj. now rewrite Hj.
  - now rewrite (findOne_none UserModel _ db Hu).
Qed.

Lemma getUserByAccount_unknown where_ db :
  find_row where_ (Account db) = None →
  getUserByAccount findOne_undefined_id where_ db = (Normal None, db).
Proof.
  intros H. unfold getUserByAccount. unfold mbind, em_bind.
  now rewrite (findOne_none AccountModel where_ db H).
Qed.

(** X17: createSession and linkAccount store nothing for a user that does not
    exist: they fail with "User not found" and leave the database as it
    is. *)
Theorem no_user_nothing_stored constructed (session : NewSession) (account : AccountData) db :
  find_row {[ "id" := VString (new_userId session) ]} (User db) = None →
  find_row {[ "id" := VString (account_userId account) ]} (User db) = None →
  createSession rejects constructed session db = (Throw (Error "User not found"), db)
  ∧ linkAccount rejects constructed account db = (Throw (Error "User not found"), db).
Proof.
  intros Hs Ha. split.
  - unfold createSession. unfold mbind, em_bind.
    now rewrite (findOne_none UserModel _ db Hs).
  - unfold linkAccount. unfold mbind, em_bind.
    now rewrite (findOne_none UserModel _ db Ha).
Qed.

Lemma new_session_satisfies constructed (session : NewSession) :
  satisfies {[ "sessionToken" := VString (new_sessionToken session) ]}
    (new_session_object session ∪ constructed) = true.
Proof.
  unfold satisfies. apply bool_decide_eq_true_2. apply map_Forall_singleton.
  apply lookup_union_Some_l. unfold new_session_object.
  apply lookup_insert_eq.
Qed.

(** X18: A session that createSession stored for an existing user is the last
    row of the table; deleteSession with its token returns it and leaves
    the database as it was before, when no earlier session has that
    token. *)
Theorem createSession_then_deleteSession constructed (session : NewSession) db i :
  let stored := new_session_object session ∪ constructed in
  let db' := set_rows SessionModel (Session db ++ [stored]) db in
  find_row {[ "id" := VString (new_userId session) ]} (User db) = Some i →
  rejects SessionModel (Session db) stored = None →
  find_row {[ "sessionToken" := VString (new_sessionToken session) ]} (Session db) = None →
  createSession rejects constructed session db = (Normal stored, db')
  ∧ deleteSession (new_sessionToken session) db' = (Normal (Some stored), db).
Proof.
  intros stored db' Huser Hacc Hfresh. subst stored. split.
  - destruct (findOne_found UserModel _ db i Huser) as (u & _ & _ & Hf).
    unfold createSession. unfold mbind, em_bind. rewrite Hf.
    now rewrite (insertAndFlush_accepted SessionModel
                   (new_session_object session ∪ constructed) db Hacc).
  - unfold deleteSession. unfold mbind, em_bind.
    assert (Hfind : find_row {[ "sessionToken" := VString (new_sessionToken session) ]}
                      (rows SessionModel db') = Some (length (Session db))).
    { unfold db'. rewrite rows_set_rows. apply find_row_appended; [exact Hfresh|].
      apply new_session_satisfies. }
    destruct (findOne_found SessionModel _ db' _ Hfind) as (r & Hr & _ & Hf).
    rewrite Hf. unfold db' in Hr. rewrite rows_set_rows in Hr.
    rewrite lookup_app_r, Nat.sub_diag in Hr by lia. injection Hr as <-.
    unfold removeAndFlush. cbn [model row props toObject].
    unfold db'. rewrite rows_set_rows, delete_appended, set_rows_set_rows.
    now destruct db.
Qed.

(** X19: A verification token that createVerificationToken stored is used up by
    one useVerificationToken with its identifier and token, which returns
    it and leaves the database as it was before, when no earlier token
    matches. *)
Theorem createVerificationToken_then_use constructed data params db :
  let stored := data ∪ constructed in
  let db' := set_rows VerificationTokenModel (VerificationToken db ++ [stored]) db in
  rejects VerificationTokenModel (VerificationToken db) stored = None →
  satisfies params stored = true →
  find_row params (VerificationToken db) = None →
  createVerificationToken rejects constructed data db = (Normal stored, db')
  ∧ useVerificationToken params db' = (Normal (Some stored), db)
  ∧ useVerificationToken params db = (Normal None, db).
Proof.
  intros stored db' Hacc Hsat Hfresh. subst stored. split; [|split].
  - unfold createVerificationToken. unfold mbind, em_bind.
    now rewrite (insertAndFlush_accepted VerificationTokenModel (data ∪ constructed) db Hacc).
  - unfold useVerificationToken. unfold mbind, em_bind.
    assert (Hfind : find_row params (rows VerificationTokenModel db')
                    = Some (length (VerificationToken db))).
    { unfold db'. rewrite rows_set_rows. now apply find_row_appended. }
    destruct (findOne_found VerificationTokenModel _ db' _ Hfind) as (r & Hr & _ & Hf).
    rewrite Hf. unfold db' in Hr. rewrite rows_set_rows in Hr.
    rewrite lookup_app_r, Nat.sub_diag in Hr by lia. injection Hr as <-.
    unfold removeAndFlush. cbn [model row props toObject].
    unfold db'. rewrite rows_set_rows, delete_appended, set_rows_set_rows.
    now destruct db.
  - unfold useVerificationToken. unfold mbind, em_bind.
    now rewrite (findOne_none VerificationTokenModel params db Hfresh).
Qed.

End WithDatabase.

(** X20: deleteSession and unlinkAccount remove the first row that matches and
    return it; for a row that is not there deleteSession returns null and
    unlinkAccount fails with "Account not found", and the database is left
    as it is. *)
Theorem removal_of_session_and_account (sessionToken : string) where_ db :
  match find_row {[ "sessionToken" := VString sessionToken ]} (Session db) with
  | None => deleteSession sessionToken db = (Normal None, db)
  | Some i =>
      ∃ session,
        Session db !! i = Some session
        ∧ deleteSession sessionToken db
          = (Normal (Some session), set_rows SessionModel (delete i (Session db)) db)
  end
  ∧ match find_row where_ (Account db) with
    | None => unlinkAccount where_ db = (Throw (Error "Account not found"), db)
    | Some i =>
        ∃ account,
          Account db !! i = Some account
          ∧ unlinkAccount where_ db
            = (Normal account, set_rows AccountModel (delete i (Account db)) db)
    end.
Proof.
  split.
  - destruct (find_row _ (Session db)) as [i|] eqn:Hfind.
    + destruct (findOne_found SessionModel _ db i Hfind) as (r & Hr & _ & Hf).
      exists r. split; [exact Hr|].
      unfold deleteSession. unfold mbind, em_bind. now rewrite Hf.
    + unfold deleteSession. unfold mbind, em_bind.
      now rewrite (findOne_none SessionModel _ db Hfind).
  - destruct (find_row where_ (Account db)) as [i|] eqn:Hfind.
    + destruct (findOne_found AccountModel _ db i Hfind) as (r & Hr & _ & Hf).
      exists r. split; [exact Hr|].
      unfold unlinkAccount. unfold mbind, em_bind. now rewrite Hf.
    + unfold unlinkAccount. unfold mbind, em_bind.
      now rewrite (findOne_none AccountModel _ db Hfind).
Qed.

Lemma session_object_token data :
  session_object data !! "sessionToken" = Some (VString (sessionToken data)).
Proof.
  unfold session_object, optional.
  destruct (VDate <$> expires data), (VString <$> userId data);
    rewrite ?lookup_insert_ne by done; apply lookup_insert_eq.
Qed.

(** X21: After updateSession on a stored session with data that carries
    no userId, a lookup by the same sessionToken finds the updated row, in
    the same place: it carries the properties of data, and those of the
    old row that data does not mention, its userId among them. The number
    of sessions, every other session and the other tables are as
    before. *)
Theorem updateSession_then_find data db i :
  let where_ : gmap string value := {[ "sessionToken" := VString (sessionToken data) ]} in
  userId data = None →
  find_row where_ (Session db) = Some i →
  ∃ old db',
    Session db !! i = Some old
    ∧ updateSession data db = (Normal (session_object data ∪ old), db')
    ∧ findOne SessionModel where_ db'
      = (Normal (Some {| model := SessionModel; row := i;
                         props := session_object data ∪ old |}), db')
    ∧ (∀ k v, session_object data !! k = Some v → (session_object data ∪ old) !! k = Some v)
    ∧ (∀ k, session_object data !! k = None → (session_object data ∪ old) !! k = old !! k)
    ∧ (session_object data ∪ old) !! "userId" = old !! "userId"
    ∧ length (Session db') = length (Session db)
    ∧ (∀ j, j ≠ i → Session db' !! j = Session db !! j)
    ∧ User db' = User db ∧ Account db' = Account db
    ∧ VerificationToken db' = VerificationToken db.
Proof.
  intros where_ Huser Hfind.
  destruct (updateSession_with_match data db i Hfind) as (old & Hold & Hupd).
  exists old, (set_rows SessionModel (<[i := session_object data ∪ old]> (Session db)) db).
  split; [exact Hold|]. split; [exact Hupd|].
  assert (Hlt : (i < length (Session db))%nat) by (eapply lookup_lt_Some; exact Hold).
  split.
  { assert (Hf : find_row where_ (<[i := session_object data ∪ old]> (Session db)) = Some i).
    { apply (find_row_at where_ _ i (session_object data ∪ old)).
      - now apply list_lookup_insert_eq.
      - unfold satisfies. apply bool_decide_eq_true_2. apply map_Forall_singleton.
        apply lookup_union_Some_l. apply session_object_token.
      - intros j r Hj Hr. rewrite list_lookup_insert_ne in Hr by lia.
        exact (find_row_first where_ _ i Hfind j r Hj Hr). }
    unfold findOne. rewrite rows_set_rows, Hf. cbn.
    now rewrite list_lookup_insert_eq. }
  split; [intros k v Hk; now apply lookup_union_Some_l|].
  split; [intros k Hk; now apply lookup_union_r|].
  split.
  { apply lookup_union_r. unfold session_object, optional. rewrite Huser. cbn.
    destruct (VDate <$> expires data); rewrite ?lookup_insert_ne by done;
      now apply lookup_singleton_ne. }
  cbn [set_rows Session User Account VerificationToken].
  split; [apply length_insert|].
  split; [intros j Hj; apply list_lookup_insert_ne; congruence|].
  repeat split.
Qed.

(** X22: updateUser on a stored user writes the properties of data over the row
    and keeps the properties data does not mention; for a user that is not
    there it fails with "User not found" and writes nothing. *)
Theorem updateUser_merges id data db :
  match find_row {[ "id" := id ]} (User db) with
  | None => updateUser id data db = (Throw (Error "User not found"), db)
  | Some i =>
      ∃ old,
        User db !! i = Some old
        ∧ updateUser id data db
          = (Normal (data ∪ old), set_rows UserModel (<[i := data ∪ old]> (User db)) db)
        ∧ (∀ k v, data !! k = Some v → (data ∪ old) !! k = Some v)
        ∧ (∀ k, data !! k = None → (data ∪ old) !! k = old !! k)
  end.
Proof.
  destruct (find_row _ (User db)) as [i|] eqn:Hfind.
  - destruct (findOne_found UserModel _ db i Hfind) as (old & Hold & _ & Hf).
    exists old. split; [exact Hold|]. split.
    + unfold updateUser. unfold mbind, em_bind. now rewrite Hf.
    + split; [intros k v Hk; now apply lookup_union_Some_l|].
      intros k Hk. now apply lookup_union_r.
  - now apply updateUser_without_match.
Qed.

(** *** The entities getEM hands to MikroORM.init *)

Lemma filter_keep_idem (l : list EntityOption) :
  List.filter keep_entity (List.filter keep_entity l) = List.filter keep_entity l.
Proof.
  induction l as [|e l IH]; cbn; [reflexivity|].
  destruct (keep_entity e) eqn:E; cbn; [now rewrite E, IH | exact IH].
Qed.

Lemma named_default_not_kept (e : EntityOption) (name : string) :
  entity_name e = Some name →
  In name ["User"; "Account"; "Session"; "VerificationToken"] →
  keep_entity e = false.
Proof.
  destruct e as [path|[n|] ident]; cbn; intros H Hin; try discriminate.
  injection H as ->.
  destruct Hin as [<-|[<-|[<-|[<-|[]]]]]; reflexivity.
Qed.

Lemma keep_entity_default_named (e : EntityOption) :
  keep_entity e = negb (default_named e).
Proof.
  destruct e as [path|[name|] ident]; cbn; try reflexivity. f_equal.
  destruct (String.eqb_spec name "User") as [->|HU]; [reflexivity|].
  destruct (String.eqb_spec name "Account") as [->|HA]; [reflexivity|].
  destruct (String.eqb_spec name "Session") as [->|HS]; [reflexivity|].
  destruct (String.eqb_spec name "VerificationToken") as [->|HV]; [reflexivity|].
  symmetry. apply bool_decide_eq_false_2. tauto.
Qed.

Lemma filter_keep_default_named (l : list EntityOption) :
  List.filter keep_entity l = List.filter (λ e, negb (default_named e)) l.
Proof.
  induction l as [|e l IH]; cbn; [reflexivity|].
  now rewrite keep_entity_default_named, IH.
Qed.

Lemma named_count_app name (l1 l2 : list EntityOption) :
  named_count name (l1 ++ l2) = (named_count name l1 + named_count name l2)%nat.
Proof. unfold named_count. now rewrite List.filter_app, length_app. Qed.

Lemma named_count_kept name (l : list EntityOption) :
  In name ["User"; "Account"; "Session"; "VerificationToken"] →
  named_count name (List.filter keep_entity l) = 0%nat.
Proof.
  intros Hname. unfold named_count. induction l as [|e l IH]; cbn; [reflexivity|].
  destruct (keep_entity e) eqn:Hkeep; [|exact IH]. cbn.
  rewrite bool_decide_eq_false_2; [exact IH|].
  intros He. rewrite (named_default_not_kept e name He Hname) in Hkeep. discriminate.
Qed.

(** X23: The entity list getEM builds is the given entities without every
    entity object named User, Account, Session or VerificationToken, in
    their order, followed by the four models. When the models carry these
    names, each of the four names is carried by exactly one element of the
    list, and building the list again from itself changes nothing. *)
Theorem init_entities_once (entities : option (list EntityOption))
    (U A S V : EntityOption) :
  entity_name U = Some "User" →
  entity_name A = Some "Account" →
  entity_name S = Some "Session" →
  entity_name V = Some "VerificationToken" →
  let l := init_entities entities U A S V in
  l = List.filter (λ e, negb (default_named e)) (default [] entities) ++ [U; A; S; V]
  ∧ (∀ name, In name ["User"; "Account"; "Session"; "VerificationToken"] →
       named_count name l = 1%nat)
  ∧ init_entities (Some l) U A S V = l.
Proof.
  intros HU HA HS HV l. unfold l, init_entities. split; [|split].
  - f_equal. destruct entities as [es|]; cbn; [|reflexivity].
    apply filter_keep_default_named.
  - intros name Hname. rewrite named_count_app.
    assert (H0 : named_count name (default [] (List.filter keep_entity <$> entities)) = 0%nat).
    { destruct entities as [es|]; cbn; [|reflexivity]. now apply named_count_kept. }
    rewrite H0. unfold named_count. cbn [List.filter]. rewrite HU, HA, HS, HV.
    destruct Hname as [<-|[<-|[<-|[<-|[]]]]]; reflexivity.
  - cbn [fmap option_fmap option_map default].
    rewrite List.filter_app. cbn [List.filter].
    rewrite (named_default_not_kept U "User" HU) by (cbn; tauto).
    rewrite (named_default_not_kept A "Account" HA) by (cbn; tauto).
    rewrite (named_default_not_kept S "Session" HS) by (cbn; tauto).
    rewrite (named_default_not_kept V "VerificationToken" HV) by (cbn; tauto).
    rewrite app_nil_r. destruct entities as [es|]; cbn; [|reflexivity].
    now rewrite filter_keep_idem.
Qed.

(** *** The same properties on the sample database *)

Lemma getUserByAccount_found_witness :
  getUserByAccount Samples.finds_nothing
    {[ "provider" := VString "github"; "providerAccountId" := VString "42" ]}
    Samples.database
  = (Throw (TypeError "Cannot read properties of null (reading 'toObject')"),
     Samples.database).
Proof.
  assert (Hfind : find_row
                    {[ "provider" := VString "github"; "providerAccountId" := VString "42" ]}
                    (Account Samples.database) = Some 0%nat)
    by (vm_compute; reflexivity).
  rewrite (getUserByAccount_found Samples.finds_nothing _ Samples.database 0
             Samples.orphan_account (VString "gone") Hfind eq_refl eq_refl).
  vm_compute. reflexivity.
Defined.

Lemma no_user_nothing_stored_witness :
  createSession Samples.accepts_all ∅
    {| new_sessionToken := "s2"; new_userId := "nobody"; new_expires := 1700000000000 |}
    Samples.database
  = (Throw (Error "User not found"), Samples.database).
Proof.
  refine (proj1 (no_user_nothing_stored Samples.accepts_all ∅
                   {| new_sessionToken := "s2"; new_userId := "nobody";
                      new_expires := 1700000000000 |}
                   {| account_userId := "nobody"; account_fields := ∅ |}
                   Samples.database _ _)); vm_compute; reflexivity.
Defined.

Lemma createSession_then_deleteSession_witness :
  ∃ stored db',
    createSession Samples.accepts_all {[ "id" := VString "s-id-2" ]}
      {| new_sessionToken := "s2"; new_userId := "u1"; new_expires := 1700000000000 |}
      Samples.database = (Normal stored, db')
    ∧ deleteSession "s2" db' = (Normal (Some stored), Samples.database).
Proof.
  eexists _, _.
  refine (createSession_then_deleteSession Samples.accepts_all {[ "id" := VString "s-id-2" ]}
            {| new_sessionToken := "s2"; new_userId := "u1"; new_expires := 1700000000000 |}
            Samples.database 0 _ eq_refl _); vm_compute; reflexivity.
Defined.

Lemma createVerificationToken_then_use_witness :
  ∃ stored db',
    createVerificationToken Samples.accepts_all ∅
      {[ "identifier" := VString "ada@example.org"; "token" := VString "abc";
         "expires" := VDate 1700000000000 ]}
      Samples.database = (Normal stored, db')
    ∧ useVerificationToken (token_params "ada@example.org" "abc") db'
      = (Normal (Some stored), Samples.database)
    ∧ useVerificationToken (token_params "ada@example.org" "abc") Samples.database
      = (Normal None, Samples.database).
Proof.
  eexists _, _.
  refine (createVerificationToken_then_use Samples.accepts_all ∅
            {[ "identifier" := VString "ada@example.org"; "token" := VString "abc";
               "expires" := VDate 1700000000000 ]}
            (token_params "ada@example.org" "abc") Samples.database eq_refl _ _);
    vm_compute; reflexivity.
Defined.

Lemma updateSession_then_find_witness :
  ∃ db',
    updateSession {| sessionToken := "s1"; userId := None; expires := Some 1800000000000 |}
      Samples.database
    = (Normal (<["expires" := VDate 1800000000000]> Samples.ada_session), db')
    ∧ length (Session db') = 1%nat.
Proof.
  destruct (updateSession_then_find
              {| sessionToken := "s1"; userId := None; expires := Some 1800000000000 |}
              Samples.database 0) as (old & db' & Hold & Hupd & _ & _ & _ & _ & Hlen & _).
  - reflexivity.
  - vm_compute. reflexivity.
  - injection Hold as <-. exists db'. split; [|exact Hlen].
    rewrite Hupd. vm_compute. reflexivity.
Defined.

Lemma init_entities_once_witness :
  let U := EntityObject (Some "User") 1 in
  let A := EntityObject (Some "Account") 2 in
  let S := EntityObject (Some "Session") 3 in
  let V := EntityObject (Some "VerificationToken") 4 in
  let mine := [EntityPath "./entities"; EntityObject (Some "User") 7;
               EntityObject (Some "Invoice") 8; EntityObject None 9] in
  init_entities (Some mine) U A S V
  = [EntityPath "./entities"; EntityObject (Some "Invoice") 8; EntityObject None 9;
     U; A; S; V]
  ∧ init_entities (Some (init_entities (Some mine) U A S V)) U A S V
    = init_entities (Some mine) U A S V
  ∧ named_count "User" (init_entities (Some mine) U A S V) = 1%nat
  ∧ init_entities (Some mine) U A S V
    = List.filter (λ e, negb (default_named e)) mine ++ [U; A; S; V].
Proof.
  intros U A S V mine. split; [reflexivity|].
  split; [|split].
  - exact (proj2 (proj2 (init_entities_once (Some mine) U A S V
                           eq_refl eq_refl eq_refl eq_refl))).
  - exact (proj1 (proj2 (init_entities_once (Some mine) U A S V
                           eq_refl eq_refl eq_refl eq_refl))
             "User" (or_introl eq_refl)).
  - exact (proj1 (init_entities_once (Some mine) U A S V eq_refl eq_refl eq_refl eq_refl)).
Defined.

End MikroOrmAdapterMore.

(** ** jwt.ts on payload objects that hold any values: the round trip *)

Module JwtObjectsFacts.

Import JSString Jwt JwtObjects.

(** *** Setting a property *)

Lemma set_property_keys k v o :
  k ∈ o.*1 → (set_property k v o).*1 = o.*1.
Proof.
  induction o as [|[k0 v0] o IH]; simpl; intros Hin.
  - inversion Hin.
  - destruct (String.eqb_spec k0 k) as [->|Hne]; [reflexivity|].
    simpl. f_equal. apply IH.
    apply elem_of_cons in Hin as [->|Hin]; [congruence | exact Hin].
Qed.

Lemma set_property_new k v o :
  k ∉ o.*1 → set_property k v o = o ++ [(k, v)].
Proof.
  induction o as [|[k0 v0] o IH]; simpl; intros Hin; [reflexivity|].
  destruct (String.eqb_spec k0 k) as [->|Hne].
  - exfalso. apply Hin. left.
  - f_equal. apply IH. intros H. apply Hin. now right.
Qed.

Lemma set_property_NoDup k v o :
  NoDup o.*1 → NoDup (set_property k v o).*1.
Proof.
  intros Hnd. destruct (decide (k ∈ o.*1)) as [Hin|Hin].
  - now rewrite set_property_keys.
  - rewrite set_property_new by exact Hin.
    rewrite fmap_app. apply NoDup_app. split; [exact Hnd|]. split.
    + intros x Hx Hx'. apply list_elem_of_singleton in Hx'. simpl in Hx'. now subst.
    + apply NoDup_singleton.
Qed.

Lemma set_property_same k v o : (k, v) ∈ set_property k v o.
Proof.
  induction o as [|[k0 v0] o IH]; simpl.
  - left.
  - destruct (String.eqb_spec k0 k); [left | now right].
Qed.

Lemma set_property_other k v o k' v' :
  k' ≠ k → (k', v') ∈ set_property k v o ↔ (k', v') ∈ o.
Proof.
  intros Hne. induction o as [|[k0 v0] o IH]; simpl.
  - split; intros H; [|inversion H].
    apply list_elem_of_singleton in H. congruence.
  - destruct (String.eqb_spec k0 k) as [->|Hne0].
    + rewrite !elem_of_cons. split; intros [H|H]; try (now right); congruence.
    + rewrite !elem_of_cons, IH. reflexivity.
Qed.

Lemma set_property_keys_elem k v o k' :
  k' ∈ (set_property k v o).*1 ↔ k' = k ∨ k' ∈ o.*1.
Proof.
  destruct (decide (k ∈ o.*1)) as [Hin|Hin].
  - rewrite set_property_keys by exact Hin. split; [now right|].
    intros [->|H]; assumption.
  - rewrite set_property_new by exact Hin. rewrite fmap_app, elem_of_app. simpl.
    rewrite list_elem_of_singleton. tauto.
Qed.

(** *** Writing an object out and reading it back *)

Lemma JSON_stringify_cons kv o members :
  JSON_stringify (kv :: o) = Normal members →
  ∃ r rest, JSON_value kv.2 = Normal r ∧ JSON_stringify o = Normal rest
            ∧ members = match r with Some j => (kv.1, j) :: rest | None => rest end.
Proof.
  simpl. destruct (JSON_value kv.2) as [r|e]; simpl; [|discriminate].
  destruct (JSON_stringify o) as [rest|e]; simpl; [|discriminate].
  intros [= <-]. now exists r, rest.
Qed.

Lemma JSON_stringify_written o members k j :
  JSON_stringify o = Normal members →
  (k, j) ∈ members ↔ ∃ v, (k, v) ∈ o ∧ JSON_value v = Normal (Some j).
Proof.
  revert members. induction o as [|[k0 v0] o IH]; intros members H.
  - injection H as <-. split; [intros Hin; inversion Hin|].
    intros (v & Hin & _). inversion Hin.
  - apply JSON_stringify_cons in H as (r & rest & Hv & Hrest & ->). simpl in *.
    specialize (IH rest Hrest). split.
    + intros Hin.
      assert (Hcase : (r = Some j ∧ k = k0) ∨ (k, j) ∈ rest).
      { destruct r as [j0|]; [|now right].
        apply elem_of_cons in Hin as [[= -> ->]|Hin]; [now left | now right]. }
      destruct Hcase as [[-> ->]|Hin'].
      * exists v0. split; [left | exact Hv].
      * apply IH in Hin' as (v & Hin' & Hv'). exists v. split; [now right | exact Hv'].
    + intros (v & Hin & Hv').
      apply elem_of_cons in Hin as [[= -> ->]|Hin].
      * rewrite Hv in Hv'. injection Hv' as ->. left.
      * assert ((k, j) ∈ rest) by (apply IH; now exists v).
        destruct r; [now right | assumption].
Qed.

Lemma JSON_stringify_value o members k v :
  JSON_stringify o = Normal members → (k, v) ∈ o → ∃ r, JSON_value v = Normal r.
Proof.
  revert members. induction o as [|[k0 v0] o IH]; intros members H Hin.
  - inversion Hin.
  - apply JSON_stringify_cons in H as (r & rest & Hv & Hrest & _). simpl in *.
    apply elem_of_cons in Hin as [[= -> ->]|Hin]; [now exists r | now apply (IH rest)].
Qed.

Lemma JSON_stringify_keys o members k :
  JSON_stringify o = Normal members → k ∈ members.*1 → k ∈ o.*1.
Proof.
  intros H Hin. apply list_elem_of_fmap in Hin as ([k' j] & -> & Hin). simpl.
  apply (JSON_stringify_written o members k' j H) in Hin as (v & Hin & _).
  apply list_elem_of_fmap. now exists (k', v).
Qed.

Lemma JSON_stringify_NoDup o members :
  JSON_stringify o = Normal members → NoDup o.*1 → NoDup members.*1.
Proof.
  revert members. induction o as [|[k0 v0] o IH]; intros members H Hnd.
  - injection H as <-. constructor.
  - pose proof H as H0.
    apply JSON_stringify_cons in H as (r & rest & Hv & Hrest & ->). simpl in *.
    apply NoDup_cons in Hnd as [Hk0 Hnd]. specialize (IH rest Hrest Hnd).
    destruct r as [j|]; [|exact IH].
    simpl. apply NoDup_cons. split; [|exact IH].
    intros Hin. apply Hk0. now apply (JSON_stringify_keys o rest).
Qed.

Lemma JSON_parse_lookup members k j :
  NoDup members.*1 → JSON_parse members !! k = Some j ↔ (k, j) ∈ members.
Proof.
  intros Hnd. unfold JSON_parse.
  rewrite <- elem_of_list_to_map
    by (rewrite fmap_reverse; now rewrite (reverse_Permutation (members.*1))).
  now rewrite elem_of_reverse.
Qed.

Lemma JSON_parse_absent members k :
  k ∉ members.*1 → JSON_parse members !! k = None.
Proof.
  intros Hk. unfold JSON_parse. apply not_elem_of_list_to_map.
  now rewrite fmap_reverse, elem_of_reverse.
Qed.

Lemma same_property {A} (o : list (string * A)) k v v' :
  NoDup o.*1 → (k, v) ∈ o → (k, v') ∈ o → v = v'.
Proof.
  induction o as [|[k0 v0] o IH]; simpl; intros Hnd Hin Hin'.
  - inversion Hin.
  - apply NoDup_cons in Hnd as [Hk0 Hnd].
    assert (Hkey : ∀ w, (k, w) ∈ o → k ∈ o.*1).
    { intros w Hw. apply list_elem_of_fmap. now exists (k, w). }
    apply elem_of_cons in Hin as [Hin|Hin];
      apply elem_of_cons in Hin' as [Hin'|Hin'].
    + congruence.
    + injection Hin as -> ->. exfalso. apply Hk0. now apply (Hkey v').
    + injection Hin' as -> ->. exfalso. apply Hk0. now apply (Hkey v).
    + now apply IH.
Qed.

(** A property that was written out and read back holds what
    JSON.stringify and JSON.parse make of its value. *)
Lemma read_back o members k v :
  NoDup o.*1 → JSON_stringify o = Normal members → (k, v) ∈ o →
  JSON_value v = Normal (JSON_parse members !! k).
Proof.
  intros Hnd H Hin.
  pose proof (JSON_stringify_NoDup o members H Hnd) as Hnd'.
  destruct (JSON_stringify_value o members k v H Hin) as [r Hr]. rewrite Hr. f_equal.
  destruct r as [j|].
  - symmetry. apply JSON_parse_lookup; [exact Hnd'|].
    apply (JSON_stringify_written o members k j H). now exists v.
  - destruct (JSON_parse members !! k) as [j|] eqn:Hl; [|reflexivity].
    apply JSON_parse_lookup in Hl; [|exact Hnd'].
    apply (JSON_stringify_written o members k j H) in Hl as (v' & Hin' & Hv').
    rewrite (same_property o k v v' Hnd Hin Hin') in Hr. congruence.
Qed.

Lemma read_back_absent o members k :
  JSON_stringify o = Normal members → k ∉ o.*1 → JSON_parse members !! k = None.
Proof.
  intros H Hk. apply JSON_parse_absent. intros Hin. apply Hk.
  now apply (JSON_stringify_keys o members).
Qed.

(** *** The object encode writes out *)

Lemma issued_object_NoDup env params :
  NoDup (default [] (token params)).*1 → NoDup (issued_object env params).*1.
Proof.
  intros H. unfold issued_object. now do 3 apply set_property_NoDup.
Qed.

Lemma issued_object_iat env params :
  ("iat", JSJson (JNumber (epoch (issuedAt_clock env)))) ∈ issued_object env params.
Proof.
  unfold issued_object.
  apply set_property_other; [done|]. apply set_property_other; [done|].
  apply set_property_same.
Qed.

Lemma issued_object_exp env params :
  ("exp", JSJson (JNumber (now (now_clock env) + default DEFAULT_MAX_AGE (maxAge params))))
  ∈ issued_object env params.
Proof.
  unfold issued_object. apply set_property_other; [done|]. apply set_property_same.
Qed.

Lemma issued_object_jti env params :
  ("jti", JSJson (JString (randomUUID env))) ∈ issued_object env params.
Proof. unfold issued_object. apply set_property_same. Qed.

Lemma issued_object_other env params k v :
  k ≠ "iat" → k ≠ "exp" → k ≠ "jti" →
  (k, v) ∈ issued_object env params ↔ (k, v) ∈ default [] (token params).
Proof.
  intros Hi He Hj. unfold issued_object.
  rewrite !set_property_other by assumption. reflexivity.
Qed.

Lemma issued_object_keys env params k :
  k ∈ (issued_object env params).*1
  ↔ k = "jti" ∨ k = "exp" ∨ k = "iat" ∨ k ∈ (default [] (token params)).*1.
Proof.
  unfold issued_object. rewrite !set_property_keys_elem. reflexivity.
Qed.

Lemma encode_writes hkdf jweEncryptText env params :
  encode hkdf jweEncryptText env params
  = (members ← JSON_stringify (issued_object env params);
     Normal (jweEncryptText A256GCM_dir (getDerivedEncryptionKey hkdf (secret params))
               members (iv env))).
Proof. reflexivity. Qed.

Lemma no_nbf_passes p t : "nbf" ∉ p.*1 → not_before_passes p t.
Proof.
  intros Hk v Hin. exfalso. apply Hk. apply list_elem_of_fmap. now exists ("nbf", v).
Qed.

(** The checks of jose on what was read back of the object encode wrote
    out. *)
Lemma issued_read_back env params members :
  NoDup (default [] (token params)).*1 →
  JSON_stringify (issued_object env params) = Normal members →
  JSON_parse members !! "iat" = Some (JNumber (epoch (issuedAt_clock env)))
  ∧ JSON_parse members !! "exp"
    = Some (JNumber (now (now_clock env) + default DEFAULT_MAX_AGE (maxAge params)))
  ∧ JSON_parse members !! "jti" = Some (JString (randomUUID env))
  ∧ (∀ k v, (k, v) ∈ default [] (token params) → k ≠ "iat" → k ≠ "exp" → k ≠ "jti" →
       JSON_value v = Normal (JSON_parse members !! k))
  ∧ (∀ k, k ∉ (default [] (token params)).*1 → k ≠ "iat" → k ≠ "exp" → k ≠ "jti" →
       JSON_parse members !! k = None).
Proof.
  intros Hnd Hwritten.
  pose proof (issued_object_NoDup env params Hnd) as Hnd'.
  pose proof (read_back _ _ _ _ Hnd' Hwritten (issued_object_iat env params)) as Hiat.
  pose proof (read_back _ _ _ _ Hnd' Hwritten (issued_object_exp env params)) as Hexp.
  pose proof (read_back _ _ _ _ Hnd' Hwritten (issued_object_jti env params)) as Hjti.
  simpl in Hiat, Hexp, Hjti.
  injection Hiat as <-. injection Hexp as <-. injection Hjti as <-.
  repeat split.
  - intros k v Hin Hi He Hj.
    apply (read_back _ _ _ _ Hnd' Hwritten). now apply issued_object_other.
  - intros k Hk Hi He Hj.
    apply (read_back_absent _ _ _ Hwritten).
    rewrite issued_object_keys. intros [?|[?|[?|?]]]; congruence.
Qed.

(** *** Payloads of JSON data *)

Lemma set_property_elem k v o k' v' :
  (k', v') ∈ set_property k v o → (k', v') = (k, v) ∨ (k', v') ∈ o.
Proof.
  induction o as [|[k0 v0] o IH]; simpl.
  - intros H. apply list_elem_of_singleton in H. now left.
  - destruct (String.eqb_spec k0 k) as [->|Hne]; rewrite !elem_of_cons.
    + intros [H|H]; [now left | right; now right].
    + intros [H|H]; [right; now left|].
      destruct (IH H) as [?|?]; [now left | right; now right].
Qed.

Lemma JSON_stringify_data o :
  (∀ k v, (k, v) ∈ o → ∃ j, v = JSJson j) → ∃ members, JSON_stringify o = Normal members.
Proof.
  induction o as [|[k0 v0] o IH]; intros Hdata; [now exists []|].
  destruct (Hdata k0 v0) as [j ->]; [left|].
  destruct IH as [rest Hrest]; [intros k v Hin; apply (Hdata k v); now right|].
  exists ((k0, j) :: rest). simpl. now rewrite Hrest.
Qed.

(** For a payload of JSON data the object that encode writes out reads
    back as the claims set of [Jwt.issued_claims]: on such payloads the
    two embeddings of encode seal the same claims. *)
Lemma written_is_issued_claims env (p : list (string * json)) s age :
  NoDup p.*1 →
  ∃ members,
    JSON_stringify
      (issued_object env {| token := Some (of_json p); secret := s; maxAge := age |})
    = Normal members
    ∧ JSON_parse members
      = issued_claims env
          {| enc_token := Some (list_to_map p); enc_secret := s; enc_maxAge := age |}.
Proof.
  intros Hnd.
  set (params := {| token := Some (of_json p); secret := s; maxAge := age |}).
  assert (Hkeys : (of_json p).*1 = p.*1).
  { unfold of_json. rewrite <- list_fmap_compose. reflexivity. }
  assert (Hin : ∀ k j, (k, JSJson j) ∈ of_json p ↔ (k, j) ∈ p).
  { intros k j. unfold of_json. rewrite list_elem_of_fmap. split.
    - intros ([k' j'] & [= -> ->] & H). exact H.
    - intros H. now exists (k, j). }
  destruct (JSON_stringify_data (issued_object env params)) as [members Hwritten].
  { intros k v H. unfold issued_object in H.
    apply set_property_elem in H as [[= _ ->]|H]; [now eexists|].
    apply set_property_elem in H as [[= _ ->]|H]; [now eexists|].
    apply set_property_elem in H as [[= _ ->]|H]; [now eexists|].
    simpl in H. unfold of_json in H.
    apply list_elem_of_fmap in H as ([k' j'] & [= -> ->] & _). now eexists. }
  exists members. split; [exact Hwritten|].
  destruct (issued_read_back env params members) as (Hiat & Hexp & Hjti & Hfields & Habsent);
    [simpl; now rewrite Hkeys | exact Hwritten |].
  apply map_eq. intros k.
  destruct (decide (k = "iat")) as [->|Hi];
    [now rewrite Hiat, JwtEncodeDecode.issued_iat|].
  destruct (decide (k = "exp")) as [->|He];
    [now rewrite Hexp, JwtEncodeDecode.issued_exp|].
  destruct (decide (k = "jti")) as [->|Hj];
    [now rewrite Hjti, JwtEncodeDecode.issued_jti|].
  rewrite JwtEncodeDecode.issued_other by assumption. simpl in *.
  destruct (decide (k ∈ p.*1)) as [Hk|Hk].
  - apply list_elem_of_fmap in Hk as ([k' j] & -> & Hk). simpl in *.
    pose proof (Hfields k' (JSJson j) (proj2 (Hin k' j) Hk) Hi He Hj) as H.
    simpl in H. injection H as <-. symmetry. now apply elem_of_list_to_map.
  - rewrite Habsent by (try rewrite Hkeys; assumption).
    symmetry. now apply not_elem_of_list_to_map.
Qed.

Lemma decode_written hkdf jweDecrypt env t p s maxAge members sealed :
  let params := {| token := Some p; secret := s; maxAge := Some maxAge |} in
  NoDup p.*1 →
  JSON_stringify (issued_object env params) = Normal members →
  truthy sealed = true →
  jweDecrypt sealed (getDerivedEncryptionKey hkdf s)
  = Normal (A256GCM_dir, JSON_parse members) →
  not_before_passes p t →
  decode hkdf jweDecrypt t {| dec_token := Some sealed; dec_secret := s |}
  = if now (now_clock env) + maxAge <=? epoch t - 15 then Throw JWTExpired
    else Normal (Some (JSON_parse members)).
Proof.
  intros params Hnd Hwritten Htruthy Hopens Hnbf.
  destruct (issued_read_back env params members Hnd Hwritten)
    as (Hiat & Hexp & _ & Hfields & Habsent).
  unfold decode, jwtDecrypt. simpl. rewrite Htruthy. simpl.
  rewrite Hopens. simpl.
  unfold check_iat. rewrite Hiat. simpl.
  assert (Hcheck : check_nbf (JSON_parse members) (epoch t) 15 = Normal ()).
  { unfold check_nbf. destruct (decide ("nbf" ∈ p.*1)) as [Hin|Hin].
    - apply list_elem_of_fmap in Hin as ([k v] & Hk & Hin). simpl in Hk. subst k.
      pose proof (Hfields "nbf" v Hin ltac:(done) ltac:(done) ltac:(done)) as Hv.
      destruct (Hnbf v Hin) as [Hnone|(n & Hn & Hle)].
      + rewrite Hnone in Hv. injection Hv as <-. reflexivity.
      + rewrite Hn in Hv. injection Hv as <-.
        destruct (Z.gtb_spec n (epoch t + 15)); [lia | reflexivity].
    - now rewrite (Habsent "nbf" Hin). }
  rewrite Hcheck. simpl. unfold check_exp. rewrite Hexp. simpl.
  now destruct (now (now_clock env) + maxAge <=? epoch t - 15).
Qed.

(** C1, amended: for every payload object p whose fields JSON.stringify
    can write, non-empty secret s and positive maxAge, encode issues a
    token; when that token is decoded with the same secret before its
    expiration time plus the 15 seconds of clock tolerance, and p has no
    nbf field that is written as anything but a number at most 15 seconds
    ahead, decode succeeds and returns a payload with iat, exp and jti set
    to the issued values, in which every other field of p holds what
    JSON.stringify and JSON.parse make of its value: the value itself when
    it is JSON data, nothing when it is left out; and no other field. *)
Theorem C1_round_trip hkdf jweEncryptText jweDecrypt env t
    (p : list (string * jsvalue)) (s : string) (maxAge : Z)
    (members : list (string * json)) :
  let params := {| token := Some p; secret := s; maxAge := Some maxAge |} in
  let key := getDerivedEncryptionKey hkdf s in
  let sealed := jweEncryptText A256GCM_dir key members (iv env) in
  NoDup p.*1 →
  truthy s = true →
  0 < maxAge →
  JSON_stringify (issued_object env params) = Normal members →
  truthy sealed = true →
  jweDecrypt sealed key = Normal (A256GCM_dir, JSON_parse members) →
  not_before_passes p t →
  epoch t - 15 < now (now_clock env) + maxAge →
  encode hkdf jweEncryptText env params = Normal sealed
  ∧ ∃ p', decode hkdf jweDecrypt t {| dec_token := Some sealed; dec_secret := s |}
          = Normal (Some p')
    ∧ (∀ k v, (k, v) ∈ p → k ≠ "iat" → k ≠ "exp" → k ≠ "jti" →
         JSON_value v = Normal (p' !! k))
    ∧ (∀ k j, (k, JSJson j) ∈ p → k ≠ "iat" → k ≠ "exp" → k ≠ "jti" →
         p' !! k = Some j)
    ∧ (∀ k, k ∉ p.*1 → k ≠ "iat" → k ≠ "exp" → k ≠ "jti" → p' !! k = None)
    ∧ p' !! "iat" = Some (JNumber (epoch (issuedAt_clock env)))
    ∧ p' !! "exp" = Some (JNumber (now (now_clock env) + maxAge))
    ∧ p' !! "jti" = Some (JString (randomUUID env)).
Proof.
  intros params key sealed Hnd Hsecret Hage Hwritten Htruthy Hopens Hnbf Hexp.
  destruct (issued_read_back env params members Hnd Hwritten)
    as (Hiat & Hexp' & Hjti & Hfields & Habsent).
  split.
  - rewrite encode_writes, Hwritten. reflexivity.
  - exists (JSON_parse members). split.
    + rewrite (decode_written hkdf jweDecrypt env t p s maxAge members sealed
                 Hnd Hwritten Htruthy Hopens Hnbf).
      destruct (Z.leb_spec (now (now_clock env) + maxAge) (epoch t - 15)); [lia | reflexivity].
    + split; [exact Hfields|]. split.
      * intros k j Hin Hi He Hj.
        pose proof (Hfields k (JSJson j) Hin Hi He Hj) as H. simpl in H. now injection H.
      * split; [exact Habsent|]. split; [exact Hiat|]. split; [exact Hexp' | exact Hjti].
Qed.

Lemma C1_round_trip_witness :
  let p := [("name", JSJson (JString "Ada"));
            ("since", JSDate "2023-11-14T22:13:20.000Z");
            ("nick", JSUndefined)] in
  ∃ p', decode StandIns.hkdf (box_decrypt Samples.env p "secret" 60) 1700000030000
          {| dec_token := Some "e.e.e.e.e"; dec_secret := "secret" |}
        = Normal (Some p')
    ∧ p' !! "name" = Some (JString "Ada")
    ∧ p' !! "since" = Some (JString "2023-11-14T22:13:20.000Z")
    ∧ p' !! "nick" = None.
Proof.
  intros p.
  destruct (C1_round_trip StandIns.hkdf box_encrypt (box_decrypt Samples.env p "secret" 60)
              Samples.env 1700000030000 p "secret" 60 (members_of Samples.env p "secret" 60)
              ltac:(apply (bool_decide_unpack _); vm_compute; exact I)
              eq_refl eq_refl eq_refl eq_refl eq_refl
              (no_nbf_passes p 1700000030000
                 ltac:(apply (bool_decide_unpack _); vm_compute; exact I))
              eq_refl)
    as (_ & p' & Hd & Hfields & Hdata & _).
  exists p'. split; [exact Hd|]. split; [|split].
  - apply Hdata; [left | done..].
  - symmetry.
    refine (f_equal (λ c, match c with Normal r => r | Throw _ => None end)
              (Hfields "since" (JSDate "2023-11-14T22:13:20.000Z") _ _ _ _));
      [right; left | done..].
  - symmetry.
    refine (f_equal (λ c, match c with Normal r => r | Throw _ => None end)
              (Hfields "nick" JSUndefined _ _ _ _));
      [right; right; left | done..].
Defined.

(** What decode makes of the sealed box in four cases. *)
Lemma box_exp_replaced :
  decode StandIns.hkdf (box_decrypt Samples.env [("exp", JSJson (JNumber 0))] "secret" 60)
    1700000000000 {| dec_token := Some "e.e.e.e.e"; dec_secret := "secret" |}
  = Normal (Some (JSON_parse [("exp", JNumber 1700000060); ("iat", JNumber 1700000000);
                              ("jti", JString "3f0c")])).
Proof. reflexivity. Qed.

Lemma box_date_written :
  JSON_stringify
    (issued_object Samples.env
       {| token := Some [("since", JSDate "2023-11-14T22:13:20.000Z")];
          secret := "secret"; maxAge := Some 60 |})
  = Normal [("since", JString "2023-11-14T22:13:20.000Z"); ("iat", JNumber 1700000000);
            ("exp", JNumber 1700000060); ("jti", JString "3f0c")].
Proof. reflexivity. Qed.

Lemma box_expired :
  decode StandIns.hkdf (box_decrypt Samples.env [("name", JSJson (JString "Ada"))] "secret" 60)
    1700003600000 {| dec_token := Some "e.e.e.e.e"; dec_secret := "secret" |}
  = Throw JWTExpired.
Proof. reflexivity. Qed.

Lemma box_nbf_rejected :
  decode StandIns.hkdf (box_decrypt Samples.env [("nbf", JSJson (JString "soon"))] "secret" 60)
    1700000000000 {| dec_token := Some "e.e.e.e.e"; dec_secret := "secret" |}
  = Throw (JWTClaimValidationFailed "nbf").
Proof. reflexivity. Qed.

(** C1 as stated fails in four ways, each on a sealed box that opens to
    the JSON text written into it: a payload field named exp is replaced by
    the issued expiration time; a Date comes back as a string; a token
    decoded one hour after it was issued for 60 seconds is rejected; and so
    is a token whose payload has an nbf field that is not a number. *)
Lemma C1_counterexample :
  let env := Samples.env in
  let standing t p :=
    round_trip_as_stated StandIns.hkdf box_encrypt (box_decrypt env p "secret" 60)
      env t p "secret" 60 in
  (∀ p, JSON_stringify
          (issued_object env {| token := Some p; secret := "secret"; maxAge := Some 60 |})
        = Normal (members_of env p "secret" 60) →
        box_decrypt env p "secret" 60
          (box_encrypt A256GCM_dir (getDerivedEncryptionKey StandIns.hkdf "secret")
             (members_of env p "secret" 60) (iv env))
          (getDerivedEncryptionKey StandIns.hkdf "secret")
        = Normal (A256GCM_dir, JSON_parse (members_of env p "secret" 60)))
  ∧ ¬ standing 1700000000000 [("exp", JSJson (JNumber 0))]
  ∧ ¬ standing 1700000000000 [("since", JSDate "2023-11-14T22:13:20.000Z")]
  ∧ ¬ standing 1700003600000 [("name", JSJson (JString "Ada"))]
  ∧ ¬ standing 1700000000000 [("nbf", JSJson (JString "soon"))].
Proof.
  intros env standing. split; [reflexivity|].
  repeat split; intros (sealed & p' & Henc & Hdec & Hall).
  - assert (sealed = "e.e.e.e.e") as -> by (vm_compute in Henc; congruence).
    unfold env in Hdec. rewrite box_exp_replaced in Hdec. injection Hdec as <-.
    destruct (Hall "exp" (JSJson (JNumber 0))) as (j & Hj & Hl); [left|].
    injection Hj as <-. vm_compute in Hl. discriminate Hl.
  - destruct (Hall "since" (JSDate "2023-11-14T22:13:20.000Z")) as (j & Hj & _); [left|].
    discriminate Hj.
  - assert (sealed = "e.e.e.e.e") as -> by (vm_compute in Henc; congruence).
    unfold env in Hdec. rewrite box_expired in Hdec. discriminate Hdec.
  - assert (sealed = "e.e.e.e.e") as -> by (vm_compute in Henc; congruence).
    unfold env in Hdec. rewrite box_nbf_rejected in Hdec. discriminate Hdec.
Qed.

(** X3: A token that encode issued and that comes back in the session cookie:
    when it is read, with the same non-empty secret, the default decode and
    raw not set, before its expiration time plus the 15 seconds of clock
    tolerance, and the payload object has no nbf field that is written as
    anything but a number at most 15 seconds ahead, getToken returns a
    payload in which every field of the object other than iat, exp and jti
    holds what JSON.stringify and JSON.parse make of its value, the value
    itself when it is JSON data. *)
Theorem session_cookie_round_trip hkdf jweEncryptText jweDecrypt SessionStore_value env t
    (p : list (string * jsvalue)) (s : string) (maxAge : Z)
    (members : list (string * json)) penv gparams r :
  let params := {| token := Some p; secret := s; maxAge := Some maxAge |} in
  let key := getDerivedEncryptionKey hkdf s in
  let sealed := jweEncryptText A256GCM_dir key members (iv env) in
  NoDup p.*1 →
  JSON_stringify (issued_object env params) = Normal members →
  truthy sealed = true →
  jweDecrypt sealed key = Normal (A256GCM_dir, JSON_parse members) →
  not_before_passes p t →
  epoch t - 15 < now (now_clock env) + maxAge →
  req gparams = Some r →
  effective_secret penv gparams = Some s →
  truthy s = true →
  decode_param gparams = None →
  default false (raw gparams) = false →
  SessionStore_value
    (default (default_cookieName (effective_secureCookie penv gparams)) (cookieName gparams))
    (effective_secureCookie penv gparams) (cookies r) (headers r) = sealed →
  encode hkdf jweEncryptText env params = Normal sealed
  ∧ ∃ payload,
      getToken hkdf jweDecrypt SessionStore_value penv t gparams = Normal (Payload payload)
      ∧ (∀ k v, (k, v) ∈ p → k ≠ "iat" → k ≠ "exp" → k ≠ "jti" →
           JSON_value v = Normal (payload !! k))
      ∧ (∀ k j, (k, JSJson j) ∈ p → k ≠ "iat" → k ≠ "exp" → k ≠ "jti" →
           payload !! k = Some j).
Proof.
  intros params key sealed Hnd Hwritten Htruthy Hopens Hnbf Hexp Hr Hs Hsec Hd Hraw Hstore.
  destruct (issued_read_back env params members Hnd Hwritten)
    as (_ & _ & _ & Hfields & _).
  split; [rewrite encode_writes, Hwritten; reflexivity|].
  exists (JSON_parse members). split; [|split].
  - rewrite (GetToken.getToken_found hkdf jweDecrypt SessionStore_value penv t gparams r s
               Hr Hs Hsec).
    rewrite Hstore. unfold bearerToken. rewrite Htruthy.
    assert (Hb : (match authorization (headers r) with
                  | Some h => if negb true && bool_decide (split " " h !! 0%nat = Some "Bearer")
                              then decodeURIComponent (split " " h !! 1%nat)
                              else Normal sealed
                  | None => Normal sealed
                  end) = Normal sealed) by now destruct (authorization (headers r)).
    rewrite Hb. cbn. rewrite Htruthy.
    unfold outcome. rewrite Hraw, Hd. cbn [default].
    rewrite (decode_written hkdf jweDecrypt env t p s maxAge members sealed
               Hnd Hwritten Htruthy Hopens Hnbf).
    destruct (Z.leb_spec (now (now_clock env) + maxAge) (epoch t - 15)); [lia | reflexivity].
  - exact Hfields.
  - intros k j Hin Hi He Hj.
    pose proof (Hfields k (JSJson j) Hin Hi He Hj) as H. simpl in H. now injection H.
Qed.

Lemma session_cookie_round_trip_witness :
  let p := [("name", JSJson (JString "Ada")); ("nick", JSUndefined)] in
  ∃ payload,
    getToken StandIns.hkdf (box_decrypt Samples.env p "secret" 60)
      StandIns.SessionStore_value StandIns.empty_env 1700000030000 Samples.params
    = Normal (Payload payload)
    ∧ payload !! "name" = Some (JString "Ada").
Proof.
  intros p.
  destruct (session_cookie_round_trip StandIns.hkdf box_encrypt
              (box_decrypt Samples.env p "secret" 60) StandIns.SessionStore_value
              Samples.env 1700000030000 p "secret" 60 (members_of Samples.env p "secret" 60)
              StandIns.empty_env Samples.params Samples.request
              ltac:(apply (bool_decide_unpack _); vm_compute; exact I)
              eq_refl eq_refl eq_refl
              (no_nbf_passes p 1700000030000
                 ltac:(apply (bool_decide_unpack _); vm_compute; exact I))
              eq_refl eq_refl eq_refl eq_refl eq_refl eq_refl eq_refl)
    as (_ & payload & Hget & _ & Hdata).
  exists payload. split; [exact Hget|].
  apply Hdata; [left | done..].
Defined.

End JwtObjectsFacts.
